(** * media-server: the API configurator and the webhook relay

    A shallow embedding of

    - [scripts/06_configure_apps_via_api.py]: the environment loader
      [load_env], the API client [ArrApp] with its readiness probe and its
      three ensure-present operations, the per-service [configure_*]
      functions and [main];
    - [apps/webhook-notifier/app.py]: [WebhookHandler.do_POST].

    Conventions.

    - Python [str] is [string]; a character is a code point below 256.
    - The values that [json.loads] / [resp.json()] produce are the type
      [json]; Python's [None] is [JNull].
    - Code that performs requests runs in the monad [M]: it threads a
      [world] (the state of the remote service and the requests sent so
      far) and either returns or raises.
    - Library calls whose result the program only passes on are inputs of
      the model: the reply of the remote service, the value decoded from a
      request body, the exit status of the shell.
    - Console output ([log_info], [log_warn], [log_error]) is not modelled. *)

From Stdlib Require Import ZArith NArith Ascii String List Bool Lia.
From Stdlib Require Import Floats.SpecFloat.
From stdpp Require Import base tactics option list gmap strings.

Local Open Scope Z_scope.
Local Set Warnings "-register-all".

(** ** Python strings *)

Module Str.

(** [str.isspace] on one character: the whitespace code points below 256. *)
Definition isspace (c : ascii) : bool :=
  let n := N_of_ascii c in
  ((9 <=? n) && (n <=? 13) || (28 <=? n) && (n <=? 32)
   || (n =? 133) || (n =? 160))%N.

(** [s.lstrip(chars)] and [s.rstrip(chars)], with [chars] as a predicate. *)
Fixpoint lstrip_by (p : ascii → bool) (s : string) : string :=
  match s with
  | EmptyString => EmptyString
  | String c rest => if p c then lstrip_by p rest else s
  end.

Fixpoint rstrip_by (p : ascii → bool) (s : string) : string :=
  match s with
  | EmptyString => EmptyString
  | String c rest =>
      match rstrip_by p rest with
      | EmptyString => if p c then EmptyString else String c EmptyString
      | kept => String c kept
      end
  end.

(** [s.strip()] *)
Definition strip (s : string) : string := rstrip_by isspace (lstrip_by isspace s).

(** [s.rstrip('/')] *)
Definition rstrip_slash (s : string) : string :=
  rstrip_by (Ascii.eqb "/"%char) s.

(** [s.startswith(p)] *)
Definition startswith (s p : string) : bool := String.prefix p s.

(** [sub in s] *)
Fixpoint contains (sub s : string) : bool :=
  String.prefix sub s ||
  match s with
  | EmptyString => false
  | String _ rest => contains sub rest
  end.

(** [s.split(sep, maxsplit)] for a one-character [sep]; [None] is the
    default [maxsplit = -1] (no limit). *)
Definition may_split (maxsplit : option nat) : bool :=
  match maxsplit with Some O => false | _ => true end.

Definition one_less (maxsplit : option nat) : option nat :=
  match maxsplit with Some n => Some (Nat.pred n) | None => None end.

Fixpoint split (sep : ascii) (maxsplit : option nat) (s : string) : list string :=
  match s with
  | EmptyString => [EmptyString]
  | String c rest =>
      if Ascii.eqb c sep && may_split maxsplit
      then EmptyString :: split sep (one_less maxsplit) rest
      else match split sep maxsplit rest with
           | piece :: more => String c piece :: more
           | [] => [String c EmptyString]
           end
  end.

(** [s.replace(old, new)] for a non-empty [old]: occurrences are found from
    the left and do not overlap; [skip] counts the characters of a match
    still to be dropped. *)
Fixpoint replace_go (old new : string) (skip : nat) (s : string) : string :=
  match s with
  | EmptyString => EmptyString
  | String c rest =>
      match skip with
      | S k => replace_go old new k rest
      | O =>
          if String.prefix old s
          then new +:+ replace_go old new (Nat.pred (String.length old)) rest
          else String c (replace_go old new O rest)
      end
  end.

Definition replace (old new s : string) : string := replace_go old new O s.

(** [int(s)] in base ten: surrounding whitespace, an optional sign, digits
    with single underscores between them. [None] is [ValueError]. *)
Definition digit (c : ascii) : option Z :=
  let n := N_of_ascii c in
  if ((48 <=? n) && (n <=? 57))%N then Some (Z.of_N n - 48) else None.

Fixpoint digits (acc : Z) (s : string) : option Z :=
  match s with
  | EmptyString => Some acc
  | String c rest =>
      if Ascii.eqb c "_"%char then
        match rest with
        | String d _ =>
            match digit d with Some _ => digits acc rest | None => None end
        | EmptyString => None
        end
      else
        match digit c with
        | Some v => digits (10 * acc + v) rest
        | None => None
        end
  end.

Definition unsigned (s : string) : option Z :=
  match s with
  | String c _ => match digit c with Some _ => digits 0 s | None => None end
  | EmptyString => None
  end.

Definition int (s : string) : option Z :=
  match strip s with
  | String "-"%char rest => Z.opp <$> unsigned rest
  | String "+"%char rest => unsigned rest
  | t => unsigned t
  end.

End Str.

(** ** Values *)

(** What [json.loads] and [resp.json()] return, and what the program passes
    as [json=] bodies. A [JDict] lists its items in order; [dict.get] takes
    the first item with the key. *)
Inductive json : Type :=
| JNull
| JBool (b : bool)
| JInt (n : Z)
| JFloat (x : spec_float)
| JStr (s : string)
| JList (items : list json)
| JDict (fields : list (string * json)).

(** [bool(v)], the test of [if v:] and of [v or w]. *)
Definition truthy (v : json) : bool :=
  match v with
  | JNull => false
  | JBool b => b
  | JInt n => negb (n =? 0)
  | JFloat (S754_zero _) => false
  | JFloat _ => true
  | JStr s => negb (String.eqb s "")
  | JList items => match items with [] => false | _ => true end
  | JDict fields => match fields with [] => false | _ => true end
  end.

(** [v == s] for a [str] [s]: only an equal [str] is equal. *)
Definition eq_str (v : json) (s : string) : bool :=
  match v with
  | JStr t => String.eqb t s
  | _ => false
  end.

Fixpoint assoc (key : string) (fields : list (string * json)) : option json :=
  match fields with
  | [] => None
  | (k, v) :: rest => if String.eqb k key then Some v else assoc key rest
  end.

(** ** Exceptions *)

Inductive exn : Type :=
| AttributeError
| TypeError
| ValueError
| JSONDecodeError
| SystemExit (code : Z).

Inductive result (A : Type) : Type :=
| Returned (a : A)
| Raised (e : exn).

Arguments Returned {A} a.
Arguments Raised {A} e.

(** [v.get(key, default)]: only a [dict] has the method. *)
Definition dict_get (v : json) (key : string) (default : json) : result json :=
  match v with
  | JDict fields => Returned (from_option id default (assoc key fields))
  | _ => Raised AttributeError
  end.

(** ** Environment Loader *)

(** The body of the loop of [load_env], for one line [raw] of the file as
    the file iterator yields it. The unpacking [key, value = ...] raises
    [ValueError] unless the split has two parts. *)
Definition env_line (env_vars : gmap string string) (raw : string)
  : result (gmap string string) :=
  let line := Str.strip raw in
  if negb (String.eqb line "") && negb (Str.startswith line "#")
     && Str.contains "=" line
  then
    match Str.split "=" (Some 1%nat) line with
    | [key; value] => Returned (<[Str.strip key := Str.strip value]> env_vars)
    | _ => Raised ValueError
    end
  else Returned env_vars.

Fixpoint env_lines (env_vars : gmap string string) (lines : list string)
  : result (gmap string string) :=
  match lines with
  | [] => Returned env_vars
  | raw :: rest =>
      match env_line env_vars raw with
      | Returned env_vars' => env_lines env_vars' rest
      | Raised e => Raised e
      end
  end.

(** [load_env()]. The argument is the file [.env]: [None] when it does not
    exist, otherwise its lines. *)
Definition load_env (dotenv : option (list string)) : result (gmap string string) :=
  match dotenv with
  | None => Raised (SystemExit 1)
  | Some lines => env_lines ∅ lines
  end.

(** *** The loader as the specification words it *)

(** The text before, and after, the first occurrence of [c]. *)
Fixpoint before_first (c : ascii) (s : string) : string :=
  match s with
  | EmptyString => EmptyString
  | String d rest => if Ascii.eqb d c then EmptyString else String d (before_first c rest)
  end.

Fixpoint after_first (c : ascii) (s : string) : string :=
  match s with
  | EmptyString => EmptyString
  | String d rest => if Ascii.eqb d c then rest else after_first c rest
  end.

(** The entry a line contributes when the three tests (non-blank, no
    leading '#', an '=') are made on the line [tested] and the key and the
    value are cut from the line [cut]. *)
Definition entry_of (tested cut : string) : option (string * string) :=
  if negb (String.eqb (Str.strip tested) "") && negb (Str.startswith tested "#")
     && Str.contains "=" tested
  then Some (Str.strip (before_first "=" cut), Str.strip (after_first "=" cut))
  else None.

(** As the claim words it: the tests read the line as it stands. *)
Definition stated_entry (raw : string) : option (string * string) :=
  entry_of raw raw.

(** As the loader does it: the tests read the line once its surrounding
    whitespace is stripped. *)
Definition stripped_entry (raw : string) : option (string * string) :=
  entry_of (Str.strip raw) raw.

(** The value of [key] when later entries overwrite earlier ones. *)
Fixpoint last_value (key : string) (entries : list (string * string)) : option string :=
  match entries with
  | [] => None
  | (k, v) :: rest =>
      match last_value key rest with
      | Some w => Some w
      | None => if String.eqb k key then Some v else None
      end
  end.

(** ** HTTP *)

Inductive method : Type := GET | POST | PUT.

(** One call of [session.get], [session.post] or [session.put]. *)
Record request : Type := {
  req_method : method;
  req_url : string;
  req_headers : list (string * string);
  req_json : option json;
  req_timeout : Z
}.

(** What the call gives back: it raises a
    [requests.exceptions.RequestException] (connection error, timeout), or
    it returns a response with a status code; [body] is what
    [resp.json()] evaluates to, [None] when it raises
    [requests.exceptions.JSONDecodeError], which is a [RequestException]. *)
Inductive reply : Type :=
| RequestException
| Response (status_code : Z) (body : option json).

(** [resp.raise_for_status()] raises [HTTPError], a [RequestException], for
    the client-error and server-error codes. *)
Definition raise_for_status (status_code : Z) : bool :=
  (400 <=? status_code) && (status_code <? 600).

(** What the API client makes of a reply: the parsed body, or [None] when
    the call raised, when the status raises, or when the body does not
    parse. *)
Definition returned_value (r : reply) : json :=
  match r with
  | RequestException => JNull
  | Response status_code body =>
      if raise_for_status status_code then JNull else from_option id JNull body
  end.

(** The world a run acts on: the state of the remote service and the
    requests sent so far, oldest first. *)
Record world (St : Type) : Type := {
  remote : St;
  sent : list request
}.

Arguments remote {St} w.
Arguments sent {St} w.

(** Computations that send requests and may raise. *)
Definition M (St A : Type) : Type := world St → result A * world St.

Definition ret {St A : Type} (a : A) : M St A := λ w, (Returned a, w).

Definition raise {St A : Type} (e : exn) : M St A := λ w, (Raised e, w).

Definition bind {St A B : Type} (m : M St A) (k : A → M St B) : M St B :=
  λ w, match m w with
       | (Returned a, w') => k a w'
       | (Raised e, w') => (Raised e, w')
       end.

(** A pure computation that may raise, run inside [M]. *)
Definition lift {St A : Type} (r : result A) : M St A := λ w, (r, w).

Notation "x ←' m ; k" := (bind m (λ x, k))
  (at level 100, m at next level, right associativity, only parsing).

(** ** API Client *)

Record ArrApp : Type := {
  name : string;
  url : string;
  api_key : option string;
  session_headers : list (string * string)
}.

(** [ArrApp.__init__] *)
Definition new_ArrApp (name url : string) (api_key : option string) : ArrApp := {|
  name := name;
  url := Str.rstrip_slash url;
  api_key := api_key;
  session_headers :=
    [("X-Api-Key", from_option id "" api_key);
     ("Content-Type", "application/json")]
|}.

Section Client.

Context {St : Type}.

(** The remote service: its reply to a request, and its next state. *)
Variable service : St → request → reply * St.

Definition send (q : request) : M St reply :=
  λ w, let (r, s) := service (remote w) q in
       (Returned r, {| remote := s; sent := sent w ++ [q] |}).

Definition api_request (verb : method) (self : ArrApp) (endpoint : string)
    (data : option json) : request := {|
  req_method := verb;
  req_url := url self +:+ "/api/v3/" +:+ endpoint;
  req_headers := session_headers self;
  req_json := data;
  req_timeout := 10
|}.

(** The body shared by [get], [post] and [put]:
    [try: resp = ...; resp.raise_for_status(); return resp.json()]
    [except RequestException: return None]. *)
Definition try_request (q : request) : M St json :=
  resp ←' send q;
  match resp with
  | RequestException => ret JNull
  | Response status_code body =>
      if raise_for_status status_code then ret JNull
      else match body with
           | Some parsed => ret parsed
           | None => ret JNull
           end
  end.

Definition get (self : ArrApp) (endpoint : string) : M St json :=
  try_request (api_request GET self endpoint None).

Definition post (self : ArrApp) (endpoint : string) (data : json) : M St json :=
  try_request (api_request POST self endpoint (Some data)).




(** ** Readiness Prober *)

Definition status_probe (self : ArrApp) : request := {|
  req_method := GET;
  req_url := url self +:+ "/api/v3/system/status";
  req_headers := session_headers self;
  req_json := None;
  req_timeout := 5
|}.

(** [wait_for_ready]. The wall clock is not modelled: [polls] is the number
    of times the loop test [time.time() - start < timeout] holds, so the
    loop makes at most [polls] probes. A probe that raises a
    [RequestException], or answers another code than 200, is followed by
    the sleep and the next test. *)
Fixpoint wait_for_ready (self : ArrApp) (polls : nat) : M St bool :=
  match polls with
  | O => ret false
  | S polls' =>
      resp ←' send (status_probe self);
      match resp with
      | Response status_code _ =>
          if status_code =? 200 then ret true else wait_for_ready self polls'
      | RequestException => wait_for_ready self polls'
      end
  end.

(** ** Idempotent Configurator *)

(** The items of [for item in v]. *)
Definition iterate (v : json) : result (list json) :=
  match v with
  | JList items => Returned items
  | JDict fields => Returned ((λ kv, JStr (fst kv)) <$> fields)
  | JStr s => Returned ((λ c, JStr (String c EmptyString)) <$> list_ascii_of_string s)
  | _ => Raised TypeError
  end.

(** [for item in items: if item.get(field) == wanted: return True] *)
Fixpoint scan (field wanted : string) (items : list json) : result bool :=
  match items with
  | [] => Returned false
  | item :: rest =>
      match dict_get item field JNull with
      | Returned v => if eq_str v wanted then Returned true else scan field wanted rest
      | Raised e => Raised e
      end
  end.

(** [if collection: for item in collection: ...]; the result says whether
    the loop returned. *)
Definition present (field wanted : string) (collection : json) : result bool :=
  if truthy collection then
    match iterate collection with
    | Returned items => scan field wanted items
    | Raised e => Raised e
    end
  else Returned false.

Definition field (key : string) (value : json) : json :=
  JDict [("name", JStr key); ("value", value)].

(** The dict [client_config] of [add_download_client]; [int(...)] raises
    [ValueError]. *)
Definition client_config (rdt_url category : string) : result json :=
  let host := from_option id "" (head (Str.split ":" None (Str.replace "http://" "" rdt_url))) in
  match Str.int (from_option id "" (last (Str.split ":" None rdt_url))) with
  | None => Raised ValueError
  | Some port =>
      Returned (JDict [
        ("enable", JBool true);
        ("protocol", JStr "torrent");
        ("priority", JInt 1);
        ("removeCompletedDownloads", JBool true);
        ("removeFailedDownloads", JBool true);
        ("name", JStr "RdtClient");
        ("fields", JList [
           field "host" (JStr host);
           field "port" (JInt port);
           field "useSsl" (JBool false);
           field "urlBase" (JStr "");
           field "username" (JStr "");
           field "password" (JStr "");
           field "category" (JStr category);
           field "postImportCategory" (JStr "");
           field "recentPriority" (JInt 0);
           field "olderPriority" (JInt 0);
           field "initialState" (JInt 0);
           field "sequentialOrder" (JBool false);
           field "firstAndLast" (JBool false)]);
        ("implementationName", JStr "qBittorrent");
        ("implementation", JStr "QBittorrent");
        ("configContract", JStr "QBittorrentSettings");
        ("tags", JList [])])
  end.

Definition add_download_client (self : ArrApp) (rdt_url category : string) : M St bool :=
  clients ←' get self "downloadclient";
  found ←' lift (present "name" "RdtClient" clients);
  if found : bool then ret true
  else
    config ←' lift (client_config rdt_url category);
    result ←' post self "downloadclient" config;
    ret (truthy result).

Definition add_root_folder (self : ArrApp) (path : string) : M St bool :=
  folders ←' get self "rootfolder";
  found ←' lift (present "path" path folders);
  if found : bool then ret true
  else
    result ←' post self "rootfolder" (JDict [("path", JStr path)]);
    ret (truthy result).

Definition mapping_config (host remote_path local_path : string) : json :=
  JDict [("host", JStr host);
         ("remotePath", JStr remote_path);
         ("localPath", JStr local_path)].

Definition add_remote_path_mapping (self : ArrApp)
    (host remote_path local_path : string) : M St bool :=
  mappings ←' get self "remotePathMapping";
  found ←' lift (present "host" host mappings);
  if found : bool then ret true
  else
    result ←' post self "remotePathMapping" (mapping_config host remote_path local_path);
    ret (truthy result).

(** The three ensure-present operations by name, with for each one its
    endpoint, the field and the value its scan compares, and the body of
    its creation request. *)
Inductive ensure : Type :=
| DownloadClient (rdt_url category : string)
| RootFolder (path : string)
| RemotePathMapping (host remote_path local_path : string).

Definition run (op : ensure) (self : ArrApp) : M St bool :=
  match op with
  | DownloadClient rdt_url category => add_download_client self rdt_url category
  | RootFolder path => add_root_folder self path
  | RemotePathMapping host remote_path local_path =>
      add_remote_path_mapping self host remote_path local_path
  end.

Definition endpoint (op : ensure) : string :=
  match op with
  | DownloadClient _ _ => "downloadclient"
  | RootFolder _ => "rootfolder"
  | RemotePathMapping _ _ _ => "remotePathMapping"
  end.

Definition equality_key (op : ensure) : string * string :=
  match op with
  | DownloadClient _ _ => ("name", "RdtClient")
  | RootFolder path => ("path", path)
  | RemotePathMapping host _ _ => ("host", host)
  end.

Definition creation_body (op : ensure) : result json :=
  match op with
  | DownloadClient rdt_url category => client_config rdt_url category
  | RootFolder path => Returned (JDict [("path", JStr path)])
  | RemotePathMapping host remote_path local_path =>
      Returned (mapping_config host remote_path local_path)
  end.

(** ** Orchestration Driver *)

(** [not api_key] for the result of [env.get(...)]: no entry, or an empty
    value. *)
Definition missing (api_key : option string) : bool :=
  match api_key with
  | None => true
  | Some key => String.eqb key ""
  end.

Definition configure_sonarr (env : gmap string string) (dry_run : bool)
    (polls : nat) : M St bool :=
  let api_key := env !! "SONARR_API_KEY" in
  if missing api_key then ret false
  else
    let sonarr := new_ArrApp "Sonarr" "http://localhost:8989" api_key in
    ready ←' wait_for_ready sonarr polls;
    if negb ready then ret false
    else if dry_run then ret true
    else
      _ ←' add_download_client sonarr "http://rdtclient:6500" "sonarr";
      _ ←' add_root_folder sonarr "/tv";
      _ ←' add_remote_path_mapping sonarr "rdtclient" "/data/downloads" "/data/downloads";
      ret true.

Definition configure_radarr (env : gmap string string) (dry_run : bool)
    (polls : nat) : M St bool :=
  let api_key := env !! "RADARR_API_KEY" in
  if missing api_key then ret false
  else
    let radarr := new_ArrApp "Radarr" "http://localhost:7878" api_key in
    ready ←' wait_for_ready radarr polls;
    if negb ready then ret false
    else if dry_run then ret true
    else
      _ ←' add_download_client radarr "http://rdtclient:6500" "radarr";
      _ ←' add_root_folder radarr "/movies";
      _ ←' add_remote_path_mapping radarr "rdtclient" "/data/downloads" "/data/downloads";
      ret true.

Definition configure_prowlarr (env : gmap string string) (dry_run : bool)
    (polls : nat) : M St bool :=
  let api_key := env !! "PROWLARR_API_KEY" in
  if missing api_key then ret false
  else
    let prowlarr := new_ArrApp "Prowlarr" "http://localhost:9696" api_key in
    ready ←' wait_for_ready prowlarr polls;
    if negb ready then ret false
    else if dry_run then ret true
    else ret true.

(** The value of [--app]. *)
Inductive app_choice : Type := sonarr | radarr | prowlarr | all.

(** The parsed command line. *)
Record arguments : Type := {
  dry_run : bool;
  verbose : bool;
  app : app_choice
}.

(** [args.app in [one, 'all']] *)
Definition selects (choice one : app_choice) : bool :=
  match choice, one with
  | all, _ => true
  | sonarr, sonarr => true
  | radarr, radarr => true
  | prowlarr, prowlarr => true
  | _, _ => false
  end.

(** One of the three blocks of [main]:
    [if args.app in [...]: if not configure(env, dry_run): success = False]. *)
Definition stage (selected : bool) (configure : M St bool) (success : bool) : M St bool :=
  if selected then
    ok ←' configure;
    ret (if negb ok then false else success)
  else ret success.

(** The number of probes the clock allows for each service. *)
Record clock : Type := {
  sonarr_polls : nat;
  radarr_polls : nat;
  prowlarr_polls : nat
}.

(** [main()]. [dotenv] is the file [.env] (see [load_env]); the function
    returns when it falls off its end and raises [SystemExit] from
    [sys.exit]. *)
Definition main (args : arguments) (dotenv : option (list string)) (time : clock)
  : M St unit :=
  env ←' lift (load_env dotenv);
  success ←' stage (selects (app args) sonarr)
               (configure_sonarr env (dry_run args) (sonarr_polls time)) true;
  success ←' stage (selects (app args) radarr)
               (configure_radarr env (dry_run args) (radarr_polls time)) success;
  success ←' stage (selects (app args) prowlarr)
               (configure_prowlarr env (dry_run args) (prowlarr_polls time)) success;
  if success : bool then ret tt else raise (SystemExit 1).

End Client.

(** The exit status of the process: 0 when the program ends, the argument
    of [sys.exit], and 1 when another exception reaches the top level. *)
Definition exit_status (outcome : result unit) : Z :=
  match outcome with
  | Returned _ => 0
  | Raised (SystemExit code) => code
  | Raised _ => 1
  end.

(** The requests sent with a given method. *)
Definition with_method (verb : method) (q : request) : bool :=
  match verb, req_method q with
  | GET, GET | POST, POST | PUT, PUT => true
  | _, _ => false
  end.

Definition count_method (verb : method) (qs : list request) : nat :=
  length (filter (λ q, with_method verb q = true) qs).

(** A computation sends only requests of one method: whatever the world,
    the requests it adds all have it. *)
Definition sends_only {St A : Type} (verb : method) (m : M St A) : Prop :=
  ∀ w, ∃ added, sent (snd (m w)) = sent w ++ added
                ∧ Forall (λ q, req_method q = verb) added.

(** A selected service is configured when its [configure_*] returns
    [True]; the world goes on from where a selected service left it. *)
Definition configured {St : Type} (selected : bool) (configure : M St bool)
    (w : world St) : Prop :=
  selected = true → fst (configure w) = Returned true.

Definition carry_on {St : Type} (selected : bool) (configure : M St bool)
    (w : world St) : world St :=
  if selected then snd (configure w) else w.

(** ** Reference services *)

(** A service that answers from a script, one reply per request, and
    refuses the connection once the script is used up. *)
Definition scripted (script : list reply) (q : request) : reply * list reply :=
  match script with
  | [] => (RequestException, [])
  | r :: rest => (r, rest)
  end.

(** A service that is up (its status endpoint answers 200) and whose other
    endpoints cannot be reached. *)
Definition only_status (s : unit) (q : request) : reply * unit :=
  if Str.contains "/system/status" (req_url q)
  then (Response 200 None, s)
  else (RequestException, s).

(** A service that keeps one collection: a GET answers with it, a POST
    appends the posted object and answers with it. *)
Definition keeping (store : list json) (q : request) : reply * list json :=
  match req_method q, req_json q with
  | GET, _ => (Response 200 (Some (JList store)), store)
  | POST, Some item => (Response 201 (Some item), store ++ [item])
  | _, _ => (Response 405 None, store)
  end.

(** [n] invocations in a row of an operation, each in the world the one
    before left. *)
Fixpoint repeatedly {St A : Type} (n : nat) (op : M St A) (w : world St) : world St :=
  match n with
  | O => w
  | S n' => repeatedly n' op (snd (op w))
  end.

(** ** Webhook Relay *)

Module Webhook.

(** An inbound POST as [do_POST] reads it: the [Content-Length] header when
    there is one, and [read_json n], what
    [json.loads(self.rfile.read(n).decode())] evaluates to: the decoded
    value, or the exception of [decode] or of [json.loads]. *)
Record post : Type := {
  content_length : option string;
  read_json : Z → result json
}.

(** What the handler does to the outside, oldest first: the call of
    [os.system], [send_response], [end_headers], and writes to [wfile]. *)
Inductive effect : Type :=
| OsSystem (command : string)
| SendResponse (code : Z)
| EndHeaders
| Write (data : string).

Definition quote : string := String "034"%char EmptyString.

Definition nul : string := String "000"%char EmptyString.

Section Handler.

(** [str(v)] for a value that is not a [str]. *)
Variable str_other : json → string.

(** The exit status the shell gives for a command line. *)
Variable shell : string → Z.

(** [f"{v}"] *)
Definition format (v : json) : string :=
  match v with
  | JStr s => s
  | _ => str_other v
  end.

(** [data.get('series', {}).get('title') or data.get('movie', {}).get('title', 'Unknown')] *)
Definition title (data : json) : result json :=
  match dict_get data "series" (JDict []) with
  | Raised e => Raised e
  | Returned series_info =>
      match dict_get series_info "title" JNull with
      | Raised e => Raised e
      | Returned series_title =>
          if truthy series_title then Returned series_title
          else
            match dict_get data "movie" (JDict []) with
            | Raised e => Raised e
            | Returned movie_info => dict_get movie_info "title" (JStr "Unknown")
            end
      end
  end.

(** The command line of the alert. *)
Definition alert (series : json) : string :=
  "bash scripts/phase2/send_alert.sh info " +:+ quote +:+ "Media Ready" +:+ quote
  +:+ " " +:+ quote +:+ format series +:+ " is ready to watch!" +:+ quote.

(** [os.system(command)]: the call is made; it raises [ValueError] for a
    command with a null character and otherwise returns the exit status. *)
Definition os_system (command : string) : result Z * list effect :=
  if Str.contains nul command
  then (Raised ValueError, [OsSystem command])
  else (Returned (shell command), [OsSystem command]).

(** [WebhookHandler.do_POST] *)
Definition do_POST (self : post) : result unit * list effect :=
  match from_option Str.int (Some 0) (content_length self) with
  | None => (Raised ValueError, [])
  | Some length =>
      match read_json self length with
      | Raised e => (Raised e, [])
      | Returned data =>
          match dict_get data "eventType" (JStr "Unknown") with
          | Raised e => (Raised e, [])
          | Returned event_type =>
              match title data with
              | Raised e => (Raised e, [])
              | Returned series =>
                  match os_system (alert series) with
                  | (Raised e, done) => (Raised e, done)
                  | (Returned _, done) =>
                      (Returned tt, done ++ [SendResponse 200; EndHeaders])
                  end
              end
          end
      end
  end.

End Handler.



(** An event has no title under [key] when it has no such item, or the
    item is an object without a title; it has a falsy title when the
    object holds a title that is empty, null, false or zero. *)
Definition untitled (key : string) (fields : list (string * json)) : Prop :=
  assoc key fields = None
  ∨ ∃ info, assoc key fields = Some (JDict info) ∧ assoc "title" info = None.

Definition falsy_title (key : string) (fields : list (string * json)) : Prop :=
  ∃ info t, assoc key fields = Some (JDict info)
    ∧ assoc "title" info = Some t ∧ truthy t = false.


(** The command lines passed to [os.system]. *)
Fixpoint commands (effects : list effect) : list string :=
  match effects with
  | [] => []
  | OsSystem command :: rest => command :: commands rest
  | _ :: rest => commands rest
  end.

End Webhook.

(** ** Sample inputs *)

Module Sample.

(** A world in which nothing has been sent yet. *)
Definition fresh {St : Type} (s : St) : world St := {| remote := s; sent := [] |}.

Definition env : gmap string string := <["SONARR_API_KEY" := "k"]> ∅.

Definition sonarr_app : ArrApp :=
  new_ArrApp "Sonarr" "http://localhost:8989" (Some "k").

Definition one_poll : clock :=
  {| sonarr_polls := 1; radarr_polls := 1; prowlarr_polls := 1 |}.

(** [--app sonarr], with and without [--dry-run]. *)
Definition only_sonarr : arguments :=
  {| dry_run := false; verbose := false; app := sonarr |}.

Definition only_sonarr_dry : arguments :=
  {| dry_run := true; verbose := false; app := sonarr |}.

(** The creation body of the download client as the driver asks for it. *)
Definition rdtclient_config : json :=
  Eval vm_compute in
    match client_config "http://rdtclient:6500" "sonarr" with
    | Returned config => config
    | Raised _ => JNull
    end.

(** A mapping for the host "rdtclient" with paths that are not the ones the
    driver asks for. *)
Definition stale_mapping : list (string * json) :=
  [("id", JInt 1); ("host", JStr "rdtclient");
   ("remotePath", JStr "/old"); ("localPath", JStr "/elsewhere")].

Definition rdtclient_entry : list (string * json) :=
  [("id", JInt 7); ("name", JStr "RdtClient")].

(** Webhook requests: a series event, a movie event, an event with neither,
    an event whose series title is empty, and a body that is not JSON. *)
Definition event (data : json) : Webhook.post :=
  {| Webhook.content_length := Some "64"; Webhook.read_json := λ _, Returned data |}.

Definition series_event : list (string * json) :=
  [("eventType", JStr "Download"); ("series", JDict [("title", JStr "Show A")])].

Definition movie_event : list (string * json) :=
  [("eventType", JStr "Download"); ("movie", JDict [("title", JStr "Film B")])].

Definition bare_event : list (string * json) :=
  [("eventType", JStr "Test")].

Definition empty_title_event : list (string * json) :=
  [("eventType", JStr "Download"); ("series", JDict [("title", JStr "")])].


(** The titles of the samples are strings, so [str] of another value is
    never consulted. *)
Definition str_other (v : json) : string := "".

Definition shell_fails (command : string) : Z := 127.

End Sample.

(** ** Further notions *)


(** The replies a service gives to [n] sendings in a row of one request,
    from the state [s] on. *)
Fixpoint replies {St : Type} (service : St → request → reply * St)
    (q : request) (n : nat) (s : St) : list reply :=
  match n with
  | O => []
  | S n' => let (r, s') := service s q in r :: replies service q n' s'
  end.

(** The test the prober makes on the outcome of a probe. *)
Definition ready_reply (r : reply) : bool :=
  match r with
  | Response status_code _ => status_code =? 200
  | RequestException => false
  end.



(** The value of the setting called [key] in the [fields] list of a
    download-client configuration. *)
Fixpoint named (key : string) (items : list json) : option json :=
  match items with
  | [] => None
  | JDict item :: rest =>
      if eq_str (from_option id JNull (assoc "name" item)) key
      then assoc "value" item
      else named key rest
  | _ :: rest => named key rest
  end.

Definition setting (key : string) (config : json) : option json :=
  match config with
  | JDict items =>
      match assoc "fields" items with
      | Some (JList settings) => named key settings
      | _ => None
      end
  | _ => None
  end.

(** A run over all three services, and a [.env] with a key for each. *)
Definition every_service : arguments :=
  {| dry_run := false; verbose := false; app := all |}.

Definition three_keys : list string :=
  ["SONARR_API_KEY=a"; "RADARR_API_KEY=b"; "PROWLARR_API_KEY=c"].

(** * Properties *)

(** ** Strings *)

Section Stripping.

Variable p : ascii → bool.

Lemma lstrip_by_idem (s : string) :
  Str.lstrip_by p (Str.lstrip_by p s) = Str.lstrip_by p s.
Proof.
  induction s as [|d rest IH]; simpl; [done|].
  destruct (p d) eqn:Hd; [done|]. simpl. by rewrite Hd.
Qed.

Lemma rstrip_by_idem (s : string) :
  Str.rstrip_by p (Str.rstrip_by p s) = Str.rstrip_by p s.
Proof.
  induction s as [|d rest IH]; simpl; [done|].
  destruct (Str.rstrip_by p rest) as [|e kept] eqn:Hrest.
  - destruct (p d) eqn:Hd; simpl; [done|]. by rewrite Hd.
  - change (Str.rstrip_by p (String d (String e kept)))
      with (match Str.rstrip_by p (String e kept) with
            | EmptyString => if p d then EmptyString else String d EmptyString
            | kept' => String d kept'
            end).
    by rewrite IH.
Qed.

Lemma strip_by_comm (s : string) :
  Str.lstrip_by p (Str.rstrip_by p s) = Str.rstrip_by p (Str.lstrip_by p s).
Proof.
  induction s as [|d rest IH]; simpl; [done|].
  destruct (p d) eqn:Hd.
  - rewrite <- IH.
    destruct (Str.rstrip_by p rest) as [|e kept]; simpl; by rewrite ?Hd.
  - simpl.
    destruct (Str.rstrip_by p rest) as [|e kept]; simpl; by rewrite ?Hd.
Qed.

End Stripping.

Lemma strip_idem (s : string) : Str.strip (Str.strip s) = Str.strip s.
Proof.
  unfold Str.strip.
  by rewrite strip_by_comm, lstrip_by_idem, rstrip_by_idem.
Qed.

Lemma strip_lstrip (s : string) :
  Str.strip (Str.lstrip_by Str.isspace s) = Str.strip s.
Proof. unfold Str.strip. by rewrite lstrip_by_idem. Qed.

Lemma strip_rstrip (s : string) :
  Str.strip (Str.rstrip_by Str.isspace s) = Str.strip s.
Proof. unfold Str.strip. by rewrite strip_by_comm, rstrip_by_idem. Qed.

Lemma prefix_empty (s : string) : String.prefix EmptyString s = true.
Proof. by destruct s. Qed.

Lemma contains_char (c d : ascii) (rest : string) :
  Str.contains (String c EmptyString) (String d rest)
  = Ascii.eqb d c || Str.contains (String c EmptyString) rest.
Proof.
  simpl. destruct (ascii_dec c d) as [->|Hne].
  - by rewrite prefix_empty, Ascii.eqb_refl.
  - destruct (Ascii.eqb_spec d c); [congruence|done].
Qed.

Section Cutting.

Variable p : ascii → bool.
Variable c : ascii.
Hypothesis kept : p c = false.

Let has (s : string) : bool := Str.contains (String c EmptyString) s.

Lemma contains_lstrip (s : string) : has (Str.lstrip_by p s) = has s.
Proof.
  unfold has. induction s as [|d rest IH]; [done|].
  simpl Str.lstrip_by. destruct (p d) eqn:Hd; [|done].
  rewrite IH, contains_char.
  destruct (Ascii.eqb_spec d c); [congruence|done].
Qed.

Lemma rstrip_keeps (s : string) : has s = true → Str.rstrip_by p s ≠ EmptyString.
Proof.
  unfold has. induction s as [|d rest IH]; [done|].
  rewrite contains_char. simpl Str.rstrip_by.
  destruct (Str.rstrip_by p rest) as [|e t]; [|done].
  destruct (Ascii.eqb_spec d c) as [->|_]; simpl.
  - by rewrite kept.
  - intros H. by destruct (IH H).
Qed.

Lemma contains_rstrip (s : string) : has (Str.rstrip_by p s) = has s.
Proof.
  unfold has. induction s as [|d rest IH]; [done|].
  rewrite contains_char. simpl Str.rstrip_by.
  destruct (Str.rstrip_by p rest) as [|e t] eqn:Hrest.
  - rewrite <- IH. destruct (Ascii.eqb_spec d c) as [->|Hne].
    + by rewrite kept, contains_char, Ascii.eqb_refl.
    + destruct (p d); [done|]. rewrite contains_char.
      by destruct (Ascii.eqb_spec d c).
  - by rewrite contains_char, IH.
Qed.

Lemma before_first_lstrip (s : string) :
  before_first c (Str.lstrip_by p s) = Str.lstrip_by p (before_first c s).
Proof.
  induction s as [|d rest IH]; [done|]. simpl.
  destruct (p d) eqn:Hd.
  - destruct (Ascii.eqb_spec d c); [congruence|]. simpl. by rewrite Hd.
  - simpl. destruct (Ascii.eqb d c); simpl; [done|]. by rewrite Hd.
Qed.

Lemma after_first_lstrip (s : string) :
  after_first c (Str.lstrip_by p s) = after_first c s.
Proof.
  induction s as [|d rest IH]; [done|]. simpl.
  destruct (p d) eqn:Hd; [|done].
  by destruct (Ascii.eqb_spec d c); [congruence|].
Qed.

Lemma before_first_rstrip (s : string) :
  has s = true → before_first c (Str.rstrip_by p s) = before_first c s.
Proof.
  unfold has. induction s as [|d rest IH]; [done|].
  rewrite contains_char. simpl.
  destruct (Ascii.eqb_spec d c) as [->|Hne]; simpl.
  - intros _. destruct (Str.rstrip_by p rest); simpl.
    + by rewrite kept; simpl; rewrite Ascii.eqb_refl.
    + by rewrite Ascii.eqb_refl.
  - intros H. pose proof (rstrip_keeps rest H) as Hne'.
    destruct (Str.rstrip_by p rest) as [|e t] eqn:Hrest; [done|].
    simpl. destruct (Ascii.eqb_spec d c); [done|].
    by rewrite <- (IH H).
Qed.

Lemma after_first_rstrip (s : string) :
  has s = true → after_first c (Str.rstrip_by p s) = Str.rstrip_by p (after_first c s).
Proof.
  unfold has. induction s as [|d rest IH]; [done|].
  rewrite contains_char. simpl.
  destruct (Ascii.eqb_spec d c) as [->|Hne]; simpl.
  - intros _. destruct (Str.rstrip_by p rest); simpl.
    + by rewrite kept; simpl; rewrite Ascii.eqb_refl.
    + by rewrite Ascii.eqb_refl.
  - intros H. pose proof (rstrip_keeps rest H) as Hne'.
    destruct (Str.rstrip_by p rest) as [|e t] eqn:Hrest; [done|].
    simpl. destruct (Ascii.eqb_spec d c); [done|].
    by rewrite <- (IH H).
Qed.

End Cutting.

(** ** Environment Loader *)

Lemma split_exhausted (c : ascii) (s : string) : Str.split c (Some O) s = [s].
Proof.
  induction s as [|d rest IH]; [done|].
  simpl. rewrite IH. by rewrite andb_false_r.
Qed.

Lemma split_first (c : ascii) (s : string) :
  Str.contains (String c EmptyString) s = true →
  Str.split c (Some 1%nat) s = [before_first c s; after_first c s].
Proof.
  induction s as [|d rest IH]; [done|].
  rewrite contains_char. simpl.
  destruct (Ascii.eqb d c); simpl.
  - intros _. by rewrite split_exhausted.
  - intros H. by rewrite (IH H).
Qed.

Lemma space_not_equals : Str.isspace "="%char = false.
Proof. reflexivity. Qed.

Lemma cut_key (raw : string) :
  Str.contains "=" (Str.strip raw) = true →
  Str.strip (before_first "=" (Str.strip raw)) = Str.strip (before_first "=" raw).
Proof.
  intros H. unfold Str.strip at 2.
  rewrite (before_first_rstrip _ _ space_not_equals).
  - by rewrite (before_first_lstrip _ _ space_not_equals), strip_lstrip.
  - unfold Str.strip in H.
    by rewrite (contains_rstrip _ _ space_not_equals) in H.
Qed.

Lemma cut_value (raw : string) :
  Str.contains "=" (Str.strip raw) = true →
  Str.strip (after_first "=" (Str.strip raw)) = Str.strip (after_first "=" raw).
Proof.
  intros H. unfold Str.strip at 2.
  rewrite (after_first_rstrip _ _ space_not_equals).
  - by rewrite (after_first_lstrip _ _ space_not_equals), strip_rstrip.
  - unfold Str.strip in H.
    by rewrite (contains_rstrip _ _ space_not_equals) in H.
Qed.

(** One turn of the loop adds the entry of the line, if it has one, and
    never raises. *)
Lemma env_line_entry (env_vars : gmap string string) (raw : string) :
  env_line env_vars raw
  = Returned (match stripped_entry raw with
              | Some (key, value) => <[key := value]> env_vars
              | None => env_vars
              end).
Proof.
  unfold env_line, stripped_entry, entry_of. rewrite strip_idem.
  destruct (negb (String.eqb (Str.strip raw) "")
            && negb (Str.startswith (Str.strip raw) "#")
            && Str.contains "=" (Str.strip raw)) eqn:Htests; [|done].
  apply andb_true_iff in Htests as [_ Heq].
  by rewrite (split_first _ _ Heq), (cut_key _ Heq), (cut_value _ Heq).
Qed.

Lemma env_lines_lookup (lines : list string) (env_vars : gmap string string) :
  ∃ env, env_lines env_vars lines = Returned env ∧
    ∀ key, env !! key = match last_value key (omap stripped_entry lines) with
                        | Some value => Some value
                        | None => env_vars !! key
                        end.
Proof.
  revert env_vars. induction lines as [|raw rest IH]; intros env_vars.
  - by exists env_vars.
  - simpl env_lines. rewrite env_line_entry.
    destruct (stripped_entry raw) as [[k v]|] eqn:Hentry.
    + destruct (IH (<[k := v]> env_vars)) as (env & Hrun & Hlookup).
      exists env. split; [done|]. intros key. rewrite Hlookup.
      replace (omap stripped_entry (raw :: rest))
        with ((k, v) :: omap stripped_entry rest) by (simpl; by rewrite Hentry).
      simpl last_value.
      destruct (last_value key (omap stripped_entry rest)); [done|].
      destruct (String.eqb_spec k key) as [->|Hne].
      * by rewrite lookup_insert_eq.
      * by rewrite lookup_insert_ne.
    + destruct (IH env_vars) as (env & Hrun & Hlookup).
      exists env. split; [done|]. intros key. rewrite Hlookup.
      replace (omap stripped_entry (raw :: rest))
        with (omap stripped_entry rest) by (simpl; by rewrite Hentry).
      done.
Qed.

(** C10, as amended. For every file, [load_env] returns a mapping, and the
    value it holds for a key is the value of the last line that has an
    entry with that key, where a line has an entry when, once its
    surrounding whitespace is stripped, it is not empty, does not start
    with '#' and contains '='; the entry maps the text before the first
    '=', stripped, to the text after it, stripped. Lines without '=' have
    no entry. *)
Theorem load_env_entries (lines : list string) :
  ∃ env, load_env (Some lines) = Returned env ∧
    ∀ key, env !! key = last_value key (omap stripped_entry lines).
Proof.
  destruct (env_lines_lookup lines ∅) as (env & Hrun & Hlookup).
  exists env. split; [done|]. intros key. rewrite Hlookup.
  destruct (last_value key (omap stripped_entry lines)); [done|].
  apply lookup_empty.
Qed.

(** C10, as stated, fails: a comment line that is indented does not start
    with '#', is not blank and contains '=', so the claim gives it the
    entry "#A" -> "1"; the loader strips the line first and ignores it. *)
Lemma load_env_indented_comment :
  ∃ env, load_env (Some ["  #A=1"]) = Returned env
    ∧ env !! "#A" = None
    ∧ last_value "#A" (omap stated_entry ["  #A=1"]) = Some "1".
Proof. exists ∅. by vm_compute. Qed.

(** ** API Client *)

Section ClientFacts.

Context {St : Type}.
Variable service : St → request → reply * St.

Lemma try_request_run (q : request) (w : world St) :
  try_request service q w
  = (Returned (returned_value (service (remote w) q).1),
     {| remote := (service (remote w) q).2; sent := sent w ++ [q] |}).
Proof.
  unfold try_request, bind, send.
  destruct (service (remote w) q) as [[|status body] s]; simpl; [done|].
  destruct (raise_for_status status); [done|]. by destruct body.
Qed.


Lemma raise_for_status_iff (status : Z) :
  raise_for_status status = true ↔ 400 ≤ status < 600.
Proof. unfold raise_for_status. lia. Qed.


(** ** Idempotent Configurator *)

Lemma eq_str_true (v : json) (wanted : string) :
  eq_str v wanted = true ↔ v = JStr wanted.
Proof.
  destruct v; simpl; try (split; [done|congruence]).
  destruct (String.eqb_spec s wanted); split; congruence.
Qed.

(** The scan of a collection of objects never raises, and returns exactly
    when an object holds the wanted value. *)
Lemma scan_objects (field wanted : string) (entries : list (list (string * json))) :
  ∃ found, scan field wanted (JDict <$> entries) = Returned found
    ∧ (found = true ↔
       ∃ entry, entry ∈ entries ∧ assoc field entry = Some (JStr wanted)).
Proof.
  induction entries as [|entry rest (found & Hscan & Hfound)].
  - exists false. split; [done|]. split; [done|].
    intros (entry & Hin & _). by apply elem_of_nil in Hin.
  - simpl. destruct (assoc field entry) as [v|] eqn:Hv; simpl.
    + destruct (eq_str v wanted) eqn:Heq.
      * exists true. split; [done|]. split; [|done]. intros _.
        exists entry. split; [apply list_elem_of_here|].
        by apply eq_str_true in Heq as ->.
      * exists found. split; [done|]. rewrite Hfound. split.
        -- intros (e & Hin & He). exists e. split; [by apply list_elem_of_further|done].
        -- intros (e & Hin & He). apply elem_of_cons in Hin as [->|Hin].
           ++ rewrite Hv in He. injection He as ->.
              by rewrite (proj2 (eq_str_true _ _) eq_refl) in Heq.
           ++ by exists e.
    + exists found. split; [done|]. rewrite Hfound. split.
      * intros (e & Hin & He). exists e. split; [by apply list_elem_of_further|done].
      * intros (e & Hin & He). apply elem_of_cons in Hin as [->|Hin].
        -- by rewrite Hv in He.
        -- by exists e.
Qed.

Lemma present_objects (field wanted : string) (entries : list (list (string * json))) :
  ∃ found, present field wanted (JList (JDict <$> entries)) = Returned found
    ∧ (found = true ↔
       ∃ entry, entry ∈ entries ∧ assoc field entry = Some (JStr wanted)).
Proof.
  destruct entries as [|entry rest].
  - exists false. split; [done|]. split; [done|].
    intros (entry & Hin & _). by apply elem_of_nil in Hin.
  - apply (scan_objects field wanted (entry :: rest)).
Qed.

(** The three operations follow one protocol. *)
Lemma run_protocol (op : ensure) (self : ArrApp) :
  run service op self
  = (collection ←' get service self (endpoint op);
     found ←' lift (present (equality_key op).1 (equality_key op).2 collection);
     if found : bool then ret true
     else
       config ←' lift (creation_body op);
       result ←' post service self (endpoint op) config;
       ret (truthy result)).
Proof. by destruct op. Qed.

Lemma get_run (self : ArrApp) (path : string) (w : world St) :
  get service self path w
  = (Returned (returned_value (service (remote w) (api_request GET self path None)).1),
     {| remote := (service (remote w) (api_request GET self path None)).2;
        sent := sent w ++ [api_request GET self path None] |}).
Proof. apply try_request_run. Qed.

Lemma post_run (self : ArrApp) (path : string) (data : json) (w : world St) :
  post service self path data w
  = (Returned (returned_value
                 (service (remote w) (api_request POST self path (Some data))).1),
     {| remote := (service (remote w) (api_request POST self path (Some data))).2;
        sent := sent w ++ [api_request POST self path (Some data)] |}).
Proof. apply try_request_run. Qed.

(** When the scan finds the entry, the operation returns [True] in the
    world the GET left. *)
Lemma run_found (op : ensure) (self : ArrApp) (w w1 : world St) (collection : json) :
  get service self (endpoint op) w = (Returned collection, w1) →
  present (equality_key op).1 (equality_key op).2 collection = Returned true →
  run service op self w = (Returned true, w1).
Proof.
  intros Hget Hpresent. rewrite run_protocol.
  unfold bind, lift. by rewrite Hget, Hpresent.
Qed.

(** When it does not, the operation posts the creation body and returns
    the truth value of what [post] returns. *)
Lemma run_create (op : ensure) (self : ArrApp) (w w1 : world St)
    (collection config : json) :
  get service self (endpoint op) w = (Returned collection, w1) →
  present (equality_key op).1 (equality_key op).2 collection = Returned false →
  creation_body op = Returned config →
  run service op self w
  = (Returned (truthy (returned_value
       (service (remote w1) (api_request POST self (endpoint op) (Some config))).1)),
     {| remote := (service (remote w1) (api_request POST self (endpoint op) (Some config))).2;
        sent := sent w1 ++ [api_request POST self (endpoint op) (Some config)] |}).
Proof.
  intros Hget Hpresent Hbody. rewrite run_protocol.
  unfold bind, lift. rewrite Hget, Hpresent, Hbody.
  by rewrite post_run.
Qed.

(** When the creation body cannot be built, the operation raises in the
    world the GET left. *)
Lemma run_raises (op : ensure) (self : ArrApp) (w w1 : world St)
    (collection : json) (e : exn) :
  get service self (endpoint op) w = (Returned collection, w1) →
  present (equality_key op).1 (equality_key op).2 collection = Returned false →
  creation_body op = Raised e →
  run service op self w = (Raised e, w1).
Proof.
  intros Hget Hpresent Hbody. rewrite run_protocol.
  unfold bind, lift. by rewrite Hget, Hpresent, Hbody.
Qed.

Lemma get_sent (self : ArrApp) (path : string) (w w1 : world St) (v : json) :
  get service self path w = (Returned v, w1) →
  sent w1 = sent w ++ [api_request GET self path None].
Proof. rewrite get_run. by intros [= _ <-]. Qed.

Lemma count_post_get (self : ArrApp) (path : string) :
  count_method POST [api_request GET self path None] = O.
Proof. reflexivity. Qed.

Lemma count_post_post (self : ArrApp) (path : string) (data : json) :
  count_method POST [api_request POST self path (Some data)] = 1%nat.
Proof. reflexivity. Qed.

Lemma count_method_app (verb : method) (qs qs' : list request) :
  count_method verb (qs ++ qs') = (count_method verb qs + count_method verb qs')%nat.
Proof. unfold count_method. by rewrite filter_app, length_app. Qed.

End ClientFacts.

Section ConfiguratorFacts.

Context {St : Type}.
Variable service : St → request → reply * St.

(** C3. When the collection fetched from the service holds an entry whose
    host is the target host, whatever its other fields,
    [add_remote_path_mapping] returns [True] and the only request it sends
    is the GET: it issues no POST. *)
Theorem mapping_with_host_is_kept (self : ArrApp)
    (host remote_path local_path : string) (w w1 : world St)
    (entries : list (list (string * json))) :
  get service self "remotePathMapping" w = (Returned (JList (JDict <$> entries)), w1) →
  (∃ entry, entry ∈ entries ∧ assoc "host" entry = Some (JStr host)) →
  add_remote_path_mapping service self host remote_path local_path w
  = (Returned true, w1)
  ∧ sent w1 = sent w ++ [api_request GET self "remotePathMapping" None]
  ∧ count_method POST (sent w1) = count_method POST (sent w).
Proof.
  intros Hget Hentry.
  destruct (present_objects "host" host entries) as (found & Hpresent & Hfound).
  apply Hfound in Hentry as ->.
  split; [|split].
  - by apply (run_found service (RemotePathMapping host remote_path local_path)
                self w w1 _ Hget).
  - by apply get_sent in Hget.
  - apply get_sent in Hget as ->. rewrite count_method_app, count_post_get. lia.
Qed.

Lemma creation_body_root_folder (path : string) :
  ∃ config, creation_body (RootFolder path) = Returned config.
Proof. by eexists. Qed.

Lemma creation_body_mapping (host remote_path local_path : string) :
  ∃ config,
    creation_body (RemotePathMapping host remote_path local_path) = Returned config.
Proof. by eexists. Qed.

Lemma creation_body_rdtclient (category : string) :
  ∃ config,
    creation_body (DownloadClient "http://rdtclient:6500" category) = Returned config.
Proof. by eexists. Qed.

(** C5. When the GET of the collection returns the sentinel, an operation
    whose creation body can be built scans nothing, just as for an empty
    collection, sends the creation POST right after the GET, and returns:
    the failure of the fetch is not raised. The creation body can be built
    for every root folder, for every path mapping, and for the download
    client at the URL the driver passes ([int] needs the URL to end in a
    port number). *)
Theorem fetch_failure_still_creates :
  (∀ (op : ensure) (self : ArrApp) (w w1 : world St) (config : json),
     get service self (endpoint op) w = (Returned JNull, w1) →
     creation_body op = Returned config →
     present (equality_key op).1 (equality_key op).2 JNull
     = present (equality_key op).1 (equality_key op).2 (JList [])
     ∧ ∃ ok w2,
         run service op self w = (Returned ok, w2)
         ∧ sent w2 = sent w ++ [api_request GET self (endpoint op) None;
                                api_request POST self (endpoint op) (Some config)])
  ∧ (∀ path, ∃ config, creation_body (RootFolder path) = Returned config)
  ∧ (∀ host remote_path local_path,
       ∃ config,
         creation_body (RemotePathMapping host remote_path local_path)
         = Returned config)
  ∧ (∀ category,
       ∃ config,
         creation_body (DownloadClient "http://rdtclient:6500" category)
         = Returned config).
Proof.
  split_and!;
    [|exact creation_body_root_folder|exact creation_body_mapping
     |exact creation_body_rdtclient].
  intros op self w w1 config Hget Hbody. split; [done|].
  eexists _, _. split.
  - by apply (run_create service op self w w1 JNull config).
  - simpl. apply get_sent in Hget as ->. by rewrite <- app_assoc.
Qed.

(** C9. When an operation has sent its creation POST and the answer has a
    2xx status and a body that parses, the operation returns the truth
    value of the parsed body: [True] only for a truthy body, and [False]
    for null, false, zero, the empty string, the empty list and the empty
    object. *)
Theorem creation_reports_truthiness (op : ensure) (self : ArrApp)
    (w w1 : world St) (collection config : json) (status : Z) (parsed : json)
    (s : St) :
  get service self (endpoint op) w = (Returned collection, w1) →
  present (equality_key op).1 (equality_key op).2 collection = Returned false →
  creation_body op = Returned config →
  service (remote w1) (api_request POST self (endpoint op) (Some config))
  = (Response status (Some parsed), s) →
  200 ≤ status < 300 →
  run service op self w
  = (Returned (truthy parsed),
     {| remote := s;
        sent := sent w1 ++ [api_request POST self (endpoint op) (Some config)] |})
  ∧ (parsed ∈ [JNull; JBool false; JInt 0; JFloat (S754_zero false);
               JFloat (S754_zero true); JStr ""; JList []; JDict []] →
     truthy parsed = false).
Proof.
  intros Hget Hpresent Hbody Hreply Hstatus. split.
  - rewrite (run_create service op self w w1 collection config Hget Hpresent Hbody).
    rewrite Hreply. simpl.
    destruct (raise_for_status status) eqn:Hraise; [|done].
    apply raise_for_status_iff in Hraise. lia.
  - intros Hin. repeat (apply elem_of_cons in Hin as [->|Hin]; [done|]).
    by apply elem_of_nil in Hin.
Qed.

(** A collection that holds the client, for any service. *)
Lemma download_client_present (self : ArrApp) (rdt_url category : string)
    (w w1 : world St) (entries : list (list (string * json))) :
  get service self "downloadclient" w = (Returned (JList (JDict <$> entries)), w1) →
  (∃ entry, entry ∈ entries ∧ assoc "name" entry = Some (JStr "RdtClient")) →
  add_download_client service self rdt_url category w = (Returned true, w1)
  ∧ sent w1 = sent w ++ [api_request GET self "downloadclient" None]
  ∧ count_method POST (sent w1) = count_method POST (sent w).
Proof.
  intros Hget Hentry.
  destruct (present_objects "name" "RdtClient" entries) as (found & Hpresent & Hfound).
  apply Hfound in Hentry as ->.
  split; [|split].
  - by apply (run_found service (DownloadClient rdt_url category) self w w1 _ Hget).
  - by apply get_sent in Hget.
  - apply get_sent in Hget as ->. rewrite count_method_app, count_post_get. lia.
Qed.

End ConfiguratorFacts.

(** *** Repeated invocations *)

Lemma client_config_named (rdt_url category : string) (config : json) :
  client_config rdt_url category = Returned config →
  ∃ fields, config = JDict fields
    ∧ assoc "name" fields = Some (JStr "RdtClient")
    ∧ truthy config = true.
Proof.
  unfold client_config.
  destruct (Str.int _); intros [= <-]. by eexists.
Qed.

Lemma keeping_get (self : ArrApp) (path : string) (store : list json)
    (qs : list request) :
  get keeping self path {| remote := store; sent := qs |}
  = (Returned (JList store),
     {| remote := store; sent := qs ++ [api_request GET self path None] |}).
Proof. by rewrite get_run. Qed.

Lemma keeping_post (self : ArrApp) (path : string) (data : json)
    (store : list json) (qs : list request) :
  post keeping self path data {| remote := store; sent := qs |}
  = (Returned data,
     {| remote := store ++ [data];
        sent := qs ++ [api_request POST self path (Some data)] |}).
Proof. by rewrite post_run. Qed.

(** Against a service that keeps what it is sent, any number of
    invocations sends at most one POST, and none when the client is there
    from the start. *)
Lemma repeated_posts (self : ArrApp) (rdt_url category : string) (n : nat) :
  ∀ (entries : list (list (string * json))) (qs : list request),
    let w' := repeatedly n (add_download_client keeping self rdt_url category)
                {| remote := JDict <$> entries; sent := qs |} in
    (count_method POST (sent w') ≤ count_method POST qs + 1)%nat
    ∧ ((∃ entry, entry ∈ entries ∧ assoc "name" entry = Some (JStr "RdtClient")) →
       count_method POST (sent w') = count_method POST qs).
Proof.
  induction n as [|n IH]; intros entries qs; cbv zeta.
  - simpl. split; [lia|done].
  - set (w := {| remote := JDict <$> entries; sent := qs |}).
    change (repeatedly (S n) ?op w) with (repeatedly n op (snd (op w))).
    change (add_download_client keeping self rdt_url category w)
      with (run keeping (DownloadClient rdt_url category) self w).
    pose proof (keeping_get self "downloadclient" (JDict <$> entries) qs) as Hget.
    destruct (present_objects "name" "RdtClient" entries) as (found & Hpresent & Hfound).
    destruct (IH entries (qs ++ [api_request GET self "downloadclient" None]))
      as [Hle Heq].
    cbv zeta in Hle, Heq.
    rewrite count_method_app, count_post_get in Hle, Heq.
    destruct found.
    + (* the client is there: only the GET is sent *)
      rewrite (run_found keeping (DownloadClient rdt_url category) self w _ _
                 Hget Hpresent).
      simpl snd. split; [lia|]. intros _. rewrite Heq; [lia|]. by apply Hfound.
    + destruct (client_config rdt_url category) as [config|e] eqn:Hconfig.
      * (* the client is created, and found from then on *)
        rewrite (run_create keeping (DownloadClient rdt_url category) self w _ _
                   config Hget Hpresent Hconfig).
        simpl snd.
        destruct (client_config_named _ _ _ Hconfig) as (fields & -> & Hname & _).
        replace ((JDict <$> entries) ++ [JDict fields])
          with (JDict <$> (entries ++ [fields])) by by rewrite fmap_app.
        destruct (IH (entries ++ [fields])
                    ((qs ++ [api_request GET self "downloadclient" None])
                       ++ [api_request POST self "downloadclient" (Some (JDict fields))]))
          as [_ Heq'].
        cbv zeta in Heq'.
        rewrite !count_method_app, count_post_get, count_post_post in Heq'.
        rewrite Heq'.
        -- split; [lia|]. intros Hentry. apply Hfound in Hentry. discriminate.
        -- exists fields. split; [|done]. apply elem_of_app. right.
           apply list_elem_of_here.
      * (* the port does not parse: the operation raises after the GET *)
        rewrite (run_raises keeping (DownloadClient rdt_url category) self w _ _
                   e Hget Hpresent Hconfig).
        simpl snd. split; [lia|]. intros Hentry. apply Hfound in Hentry. discriminate.
Qed.

(** C4. When the collection fetched from the service holds an entry named
    "RdtClient", [add_download_client] returns [True] and sends nothing
    but the GET; hence, against a service that keeps the clients it is
    sent, any number of invocations in a row sends at most one creation
    POST. *)
Theorem download_client_created_once :
  (∀ (St : Type) (service : St → request → reply * St) (self : ArrApp)
     (rdt_url category : string) (w w1 : world St)
     (entries : list (list (string * json))),
     get service self "downloadclient" w
     = (Returned (JList (JDict <$> entries)), w1) →
     (∃ entry, entry ∈ entries ∧ assoc "name" entry = Some (JStr "RdtClient")) →
     add_download_client service self rdt_url category w = (Returned true, w1)
     ∧ sent w1 = sent w ++ [api_request GET self "downloadclient" None]
     ∧ count_method POST (sent w1) = count_method POST (sent w))
  ∧ (∀ (self : ArrApp) (rdt_url category : string) (n : nat)
       (entries : list (list (string * json))),
       (count_method POST
          (sent (repeatedly n (add_download_client keeping self rdt_url category)
                   {| remote := JDict <$> entries; sent := [] |})) ≤ 1)%nat).
Proof.
  split.
  - intros St service self rdt_url category w w1 entries.
    apply download_client_present.
  - intros self rdt_url category n entries.
    by destruct (repeated_posts self rdt_url category n entries []) as [Hle _].
Qed.

(** ** Orchestration Driver *)

Section DriverFacts.

Context {St : Type}.
Variable service : St → request → reply * St.

Lemma sends_only_ret {A : Type} (verb : method) (a : A) :
  sends_only verb (ret (St := St) a).
Proof. intros w. exists []. by rewrite app_nil_r. Qed.

Lemma sends_only_bind {A B : Type} (verb : method) (m : M St A) (k : A → M St B) :
  sends_only verb m → (∀ a, sends_only verb (k a)) → sends_only verb (bind m k).
Proof.
  intros Hm Hk w. unfold bind.
  destruct (Hm w) as (added & Hsent & Hall).
  destruct (m w) as [[a|e] w1]; simpl in *.
  - destruct (Hk a w1) as (added' & Hsent' & Hall').
    exists (added ++ added'). split.
    + by rewrite Hsent', Hsent, app_assoc.
    + by apply Forall_app.
  - by exists added.
Qed.

Lemma send_probe_only_get (self : ArrApp) :
  sends_only GET (send service (status_probe self)).
Proof.
  intros w. unfold send. destruct (service _ _) as [r s]. simpl.
  exists [status_probe self]. split; [done|]. by apply Forall_singleton.
Qed.

(** The prober sends only GETs, and never raises. *)
Lemma wait_for_ready_only_gets (self : ArrApp) (polls : nat) :
  sends_only GET (wait_for_ready service self polls).
Proof.
  induction polls as [|polls IH]; simpl.
  - apply sends_only_ret.
  - apply sends_only_bind; [apply send_probe_only_get|].
    intros [|status body]; [done|].
    destruct (status =? 200); [apply sends_only_ret|done].
Qed.

Lemma wait_for_ready_returns (self : ArrApp) (polls : nat) (w : world St) :
  ∃ ready w1, wait_for_ready service self polls w = (Returned ready, w1).
Proof.
  revert w. induction polls as [|polls IH]; intros w; simpl.
  - by eexists _, _.
  - unfold bind, send. destruct (service _ _) as [[|status body] s]; [apply IH|].
    destruct (status =? 200); [by eexists _, _|apply IH].
Qed.

Lemma sends_only_lift {A : Type} (verb : method) (r : result A) :
  sends_only verb (lift (St := St) r).
Proof. intros w. exists []. by rewrite app_nil_r. Qed.

Lemma sends_only_raise {A : Type} (verb : method) (e : exn) :
  sends_only verb (raise (St := St) (A := A) e).
Proof. intros w. exists []. by rewrite app_nil_r. Qed.

Lemma sends_only_stage (verb : method) (selected : bool) (configure : M St bool)
    (success : bool) :
  sends_only verb configure → sends_only verb (stage selected configure success).
Proof.
  intros Hconfigure. unfold stage. destruct selected; [|apply sends_only_ret].
  apply sends_only_bind; [done|]. intros ok. apply sends_only_ret.
Qed.

Ltac dry_run_gets :=
  match goal with
  | |- sends_only _ (if ?b then _ else _) => destruct b; dry_run_gets
  | |- sends_only _ (ret _) => apply sends_only_ret
  | |- sends_only _ (bind (wait_for_ready _ _ _) _) =>
      apply sends_only_bind; [apply wait_for_ready_only_gets|intros ?; dry_run_gets]
  end.

Lemma configure_sonarr_dry_gets (env : gmap string string) (polls : nat) :
  sends_only GET (configure_sonarr service env true polls).
Proof. unfold configure_sonarr. simpl. dry_run_gets. Qed.

Lemma configure_radarr_dry_gets (env : gmap string string) (polls : nat) :
  sends_only GET (configure_radarr service env true polls).
Proof. unfold configure_radarr. simpl. dry_run_gets. Qed.

Lemma configure_prowlarr_gets (env : gmap string string) (dry : bool) (polls : nat) :
  sends_only GET (configure_prowlarr service env dry polls).
Proof. unfold configure_prowlarr. simpl. dry_run_gets. Qed.

Lemma main_dry_gets (args : arguments) (dotenv : option (list string)) (time : clock) :
  dry_run args = true → sends_only GET (main service args dotenv time).
Proof.
  intros Hdry. unfold main. rewrite Hdry.
  apply sends_only_bind; [apply sends_only_lift|]. intros env.
  apply sends_only_bind;
    [apply sends_only_stage, configure_sonarr_dry_gets|]. intros success1.
  apply sends_only_bind;
    [apply sends_only_stage, configure_radarr_dry_gets|]. intros success2.
  apply sends_only_bind;
    [apply sends_only_stage, configure_prowlarr_gets|]. intros success3.
  destruct success3; [apply sends_only_ret|apply sends_only_raise].
Qed.

(** C7. In dry-run mode the driver sends only GET requests, whatever the
    selection, the environment and the service: no POST and no PUT; and a
    service whose API key is set and whose readiness probe succeeds is
    reported as configured: its [configure_*] returns [True] in the world
    the probe left. *)
Theorem dry_run_only_probes :
  (∀ args dotenv time,
     dry_run args = true → sends_only GET (main service args dotenv time))
  ∧ (∀ env polls w w1,
       missing (env !! "SONARR_API_KEY") = false →
       wait_for_ready service
         (new_ArrApp "Sonarr" "http://localhost:8989" (env !! "SONARR_API_KEY"))
         polls w = (Returned true, w1) →
       configure_sonarr service env true polls w = (Returned true, w1))
  ∧ (∀ env polls w w1,
       missing (env !! "RADARR_API_KEY") = false →
       wait_for_ready service
         (new_ArrApp "Radarr" "http://localhost:7878" (env !! "RADARR_API_KEY"))
         polls w = (Returned true, w1) →
       configure_radarr service env true polls w = (Returned true, w1))
  ∧ (∀ env polls w w1,
       missing (env !! "PROWLARR_API_KEY") = false →
       wait_for_ready service
         (new_ArrApp "Prowlarr" "http://localhost:9696" (env !! "PROWLARR_API_KEY"))
         polls w = (Returned true, w1) →
       configure_prowlarr service env true polls w = (Returned true, w1)).
Proof.
  split; [exact main_dry_gets|].
  repeat split; intros env polls w w1 Hkey Hready.
  - unfold configure_sonarr, bind. by rewrite Hkey, Hready.
  - unfold configure_radarr, bind. by rewrite Hkey, Hready.
  - unfold configure_prowlarr, bind. by rewrite Hkey, Hready.
Qed.

(** *** Exceptions of the operations *)

Lemma scan_raises (field wanted : string) (items : list json) (e : exn) :
  scan field wanted items = Raised e → e = AttributeError.
Proof.
  induction items as [|item rest IH]; simpl; [done|].
  destruct item; simpl; try by intros [= <-].
  by destruct (eq_str _ wanted).
Qed.

Lemma present_raises (field wanted : string) (collection : json) (e : exn) :
  present field wanted collection = Raised e →
  e = AttributeError ∨ e = TypeError.
Proof.
  unfold present. destruct (truthy collection); [|done].
  destruct (iterate collection) as [items|e'] eqn:Hiterate.
  - intros ->%scan_raises. by left.
  - intros [= <-]. right. destruct collection; simpl in Hiterate; congruence.
Qed.

Lemma creation_body_raises (op : ensure) (e : exn) :
  creation_body op = Raised e → e = ValueError.
Proof.
  destruct op; simpl; try done.
  unfold client_config. by destruct (Str.int _); intros [= <-].
Qed.

(** An operation raises nothing but the three errors of a reply of the
    wrong shape or of a URL without a port; it never exits. *)
Lemma run_raises_only (op : ensure) (self : ArrApp) (w w1 : world St) (e : exn) :
  run service op self w = (Raised e, w1) → exit_status (Raised e) = 1.
Proof.
  rewrite run_protocol. unfold bind, lift. rewrite get_run.
  destruct (present _ _ _) as [[|]|e'] eqn:Hpresent.
  - done.
  - destruct (creation_body op) as [config|e''] eqn:Hbody.
    + by rewrite post_run.
    + intros [= <- _]. by apply creation_body_raises in Hbody as ->.
  - intros [= <- _]. by apply present_raises in Hpresent as [-> | ->].
Qed.

(** The boolean an operation returns is not looked at: whenever the three
    operations return, the service is configured. *)
Lemma ensure_all_returns (self : ArrApp) (op1 op2 op3 : ensure)
    (w1 w2 w3 w4 : world St) (b1 b2 b3 : bool) :
  run service op1 self w1 = (Returned b1, w2) →
  run service op2 self w2 = (Returned b2, w3) →
  run service op3 self w3 = (Returned b3, w4) →
  (_ ←' run service op1 self; _ ←' run service op2 self;
   _ ←' run service op3 self; ret true) w1 = (Returned true, w4).
Proof. intros H1 H2 H3. unfold bind. by rewrite H1, H2, H3. Qed.

Lemma ensure_all_raises (self : ArrApp) (op1 op2 op3 : ensure)
    (w1 w' : world St) (e : exn) :
  (_ ←' run service op1 self; _ ←' run service op2 self;
   _ ←' run service op3 self; ret true) w1 = (Raised e, w') →
  exit_status (Raised e) = 1.
Proof.
  unfold bind.
  destruct (run service op1 self w1) as [[b1|e1] w2] eqn:H1;
    [|intros [= <- _]; by eapply run_raises_only].
  destruct (run service op2 self w2) as [[b2|e2] w3] eqn:H2;
    [|intros [= <- _]; by eapply run_raises_only].
  destruct (run service op3 self w3) as [[b3|e3] w4] eqn:H3;
    [done|intros [= <- _]; by eapply run_raises_only].
Qed.

Lemma ensure_all_not_false (self : ArrApp) (op1 op2 op3 : ensure)
    (w1 w' : world St) :
  (_ ←' run service op1 self; _ ←' run service op2 self;
   _ ←' run service op3 self; ret true) w1 ≠ (Returned false, w').
Proof.
  unfold bind.
  destruct (run service op1 self w1) as [[b1|e1] w2]; [|done].
  destruct (run service op2 self w2) as [[b2|e2] w3]; [|done].
  by destruct (run service op3 self w3) as [[b3|e3] w4].
Qed.

(** *** The exit status *)

Ltac configure_raises :=
  intros Hrun; unfold bind at 1 in Hrun;
  match type of Hrun with
  | context [wait_for_ready _ ?self ?polls ?w] =>
      destruct (wait_for_ready_returns self polls w) as ([|] & w1 & Hready);
      rewrite Hready in Hrun; simpl in Hrun
  end.

Lemma configure_sonarr_raises (env : gmap string string) (dry : bool) (polls : nat)
    (w w' : world St) (e : exn) :
  configure_sonarr service env dry polls w = (Raised e, w') →
  exit_status (Raised e) = 1.
Proof.
  unfold configure_sonarr. destruct (missing _); [done|].
  configure_raises; [|done]. destruct dry; [done|].
  by apply (ensure_all_raises _ (DownloadClient _ _) (RootFolder _)
              (RemotePathMapping _ _ _)) in Hrun.
Qed.

Lemma configure_radarr_raises (env : gmap string string) (dry : bool) (polls : nat)
    (w w' : world St) (e : exn) :
  configure_radarr service env dry polls w = (Raised e, w') →
  exit_status (Raised e) = 1.
Proof.
  unfold configure_radarr. destruct (missing _); [done|].
  configure_raises; [|done]. destruct dry; [done|].
  by apply (ensure_all_raises _ (DownloadClient _ _) (RootFolder _)
              (RemotePathMapping _ _ _)) in Hrun.
Qed.

Lemma configure_prowlarr_raises (env : gmap string string) (dry : bool) (polls : nat)
    (w w' : world St) (e : exn) :
  configure_prowlarr service env dry polls w = (Raised e, w') →
  exit_status (Raised e) = 1.
Proof.
  unfold configure_prowlarr. destruct (missing _); [done|].
  configure_raises; [|done]. by destruct dry.
Qed.

(** The three blocks of [main] and its last test, for any three
    computations that do not exit by themselves. *)
Lemma stages_exit_status (s1 s2 s3 : bool) (c1 c2 c3 : M St bool) (w : world St) :
  (∀ v e v', c1 v = (Raised e, v') → exit_status (Raised e) = 1) →
  (∀ v e v', c2 v = (Raised e, v') → exit_status (Raised e) = 1) →
  (∀ v e v', c3 v = (Raised e, v') → exit_status (Raised e) = 1) →
  let outcome :=
    fst ((success ←' stage s1 c1 true;
          success ←' stage s2 c2 success;
          success ←' stage s3 c3 success;
          if success : bool then ret tt else raise (SystemExit 1)) w) in
  (exit_status outcome = 0 ∨ exit_status outcome = 1)
  ∧ (exit_status outcome = 0 ↔
     configured s1 c1 w
     ∧ configured s2 c2 (carry_on s1 c1 w)
     ∧ configured s3 c3 (carry_on s2 c2 (carry_on s1 c1 w))).
Proof.
  intros H1 H2 H3. unfold stage, bind, configured, carry_on, ret, raise.
  destruct s1, s2, s3; simpl;
    repeat match goal with
    | |- context [?c ?v] =>
        match type of c with
        | M St bool =>
            let E := fresh "E" in
            destruct (c v) as [[[|]|?] ?] eqn:E; simpl;
            try (pose proof (H1 _ _ _ E)); try (pose proof (H2 _ _ _ E));
            try (pose proof (H3 _ _ _ E))
        end
    end;
    simpl in *;
    repeat match goal with
    | H : match ?e with SystemExit _ => _ | _ => _ end = 1 |- _ => rewrite H; clear H
    end;
    (split; [lia|]);
    (split;
     [intros ?; try lia; repeat split; intros ?; congruence
     |intros (A & B & C); try lia;
      try specialize (A eq_refl); try specialize (B eq_refl);
      try specialize (C eq_refl); congruence]).
Qed.

Lemma load_env_returns (lines : list string) :
  ∃ env, load_env (Some lines) = Returned env.
Proof. destruct (env_lines_lookup lines ∅) as (env & Hrun & _). by exists env. Qed.

Lemma main_exit_status (args : arguments) (dotenv : option (list string))
    (time : clock) (w : world St) :
  let outcome := fst (main service args dotenv time w) in
  (exit_status outcome = 0 ∨ exit_status outcome = 1)
  ∧ (exit_status outcome = 0 ↔
     ∃ env, load_env dotenv = Returned env
       ∧ let sonarr_run := configure_sonarr service env (dry_run args) (sonarr_polls time) in
         let radarr_run := configure_radarr service env (dry_run args) (radarr_polls time) in
         let prowlarr_run := configure_prowlarr service env (dry_run args) (prowlarr_polls time) in
         let w1 := carry_on (selects (app args) sonarr) sonarr_run w in
         let w2 := carry_on (selects (app args) radarr) radarr_run w1 in
         configured (selects (app args) sonarr) sonarr_run w
         ∧ configured (selects (app args) radarr) radarr_run w1
         ∧ configured (selects (app args) prowlarr) prowlarr_run w2).
Proof.
  unfold main. unfold bind at 1. unfold lift.
  destruct dotenv as [lines|].
  - destruct (load_env_returns lines) as (env & Henv). rewrite Henv.
    pose proof (stages_exit_status
      (selects (app args) sonarr) (selects (app args) radarr)
      (selects (app args) prowlarr)
      (configure_sonarr service env (dry_run args) (sonarr_polls time))
      (configure_radarr service env (dry_run args) (radarr_polls time))
      (configure_prowlarr service env (dry_run args) (prowlarr_polls time)) w
      (λ v e v', configure_sonarr_raises env _ _ v v' e)
      (λ v e v', configure_radarr_raises env _ _ v v' e)
      (λ v e v', configure_prowlarr_raises env _ _ v v' e)) as [Hcode Hzero].
    cbv zeta in *. split; [done|]. rewrite Hzero. split.
    + intros H. by exists env.
    + by intros (env' & [= <-] & H).
  - simpl. split; [by right|]. split; [done|]. by intros (env & Henv & _).
Qed.

Ltac configured_anyway Hkey Hready :=
  unfold bind at 1; rewrite Hkey, Hready; simpl;
  apply (ensure_all_returns _ (DownloadClient _ _) (RootFolder _)
           (RemotePathMapping _ _ _)).

Ltac returned_false Hrun :=
  destruct (missing _) eqn:Hkey; [by left|right];
  unfold bind at 1 in Hrun;
  match type of Hrun with
  | context [wait_for_ready _ ?self ?polls ?w] =>
      destruct (wait_for_ready_returns self polls w) as ([|] & w1 & Hready);
      rewrite Hready in Hrun; simpl in Hrun
  end.

Lemma configure_sonarr_false (env : gmap string string) (dry : bool) (polls : nat)
    (w w' : world St) :
  configure_sonarr service env dry polls w = (Returned false, w') →
  missing (env !! "SONARR_API_KEY") = true
  ∨ wait_for_ready service
      (new_ArrApp "Sonarr" "http://localhost:8989" (env !! "SONARR_API_KEY"))
      polls w = (Returned false, w').
Proof.
  unfold configure_sonarr. intros Hrun. returned_false Hrun.
  - destruct dry; [done|].
    by apply (ensure_all_not_false _ (DownloadClient _ _) (RootFolder _)
                (RemotePathMapping _ _ _)) in Hrun.
  - by injection Hrun as <-.
Qed.

Lemma configure_radarr_false (env : gmap string string) (dry : bool) (polls : nat)
    (w w' : world St) :
  configure_radarr service env dry polls w = (Returned false, w') →
  missing (env !! "RADARR_API_KEY") = true
  ∨ wait_for_ready service
      (new_ArrApp "Radarr" "http://localhost:7878" (env !! "RADARR_API_KEY"))
      polls w = (Returned false, w').
Proof.
  unfold configure_radarr. intros Hrun. returned_false Hrun.
  - destruct dry; [done|].
    by apply (ensure_all_not_false _ (DownloadClient _ _) (RootFolder _)
                (RemotePathMapping _ _ _)) in Hrun.
  - by injection Hrun as <-.
Qed.

Lemma configure_prowlarr_false (env : gmap string string) (dry : bool) (polls : nat)
    (w w' : world St) :
  configure_prowlarr service env dry polls w = (Returned false, w') →
  missing (env !! "PROWLARR_API_KEY") = true
  ∨ wait_for_ready service
      (new_ArrApp "Prowlarr" "http://localhost:9696" (env !! "PROWLARR_API_KEY"))
      polls w = (Returned false, w').
Proof.
  unfold configure_prowlarr. intros Hrun. returned_false Hrun.
  - by destruct dry.
  - by injection Hrun as <-.
Qed.

(** C1, as amended. The exit status of a run is 0 or 1. It is 0 exactly
    when the file [.env] exists and the [configure_*] function of every
    selected service returns [True], each run in the world the one before
    left. For Sonarr and Radarr, [configure_*] returns [True] as soon as
    the API key is set, the readiness probe succeeds and the three
    ensure-present operations return, whatever they return: their results
    are discarded. A [configure_*] function returns [False] only when the
    API key is missing or empty or the readiness probe fails. *)
Theorem exit_status_ignores_operations :
  (∀ args dotenv time w,
     let outcome := fst (main service args dotenv time w) in
     (exit_status outcome = 0 ∨ exit_status outcome = 1)
     ∧ (exit_status outcome = 0 ↔
        ∃ env, load_env dotenv = Returned env
          ∧ let sonarr_run := configure_sonarr service env (dry_run args) (sonarr_polls time) in
            let radarr_run := configure_radarr service env (dry_run args) (radarr_polls time) in
            let prowlarr_run := configure_prowlarr service env (dry_run args) (prowlarr_polls time) in
            let w1 := carry_on (selects (app args) sonarr) sonarr_run w in
            let w2 := carry_on (selects (app args) radarr) radarr_run w1 in
            configured (selects (app args) sonarr) sonarr_run w
            ∧ configured (selects (app args) radarr) radarr_run w1
            ∧ configured (selects (app args) prowlarr) prowlarr_run w2))
  ∧ (∀ env polls v v1 v2 v3 v4 b1 b2 b3,
       let self := new_ArrApp "Sonarr" "http://localhost:8989" (env !! "SONARR_API_KEY") in
       missing (env !! "SONARR_API_KEY") = false →
       wait_for_ready service self polls v = (Returned true, v1) →
       add_download_client service self "http://rdtclient:6500" "sonarr" v1
       = (Returned b1, v2) →
       add_root_folder service self "/tv" v2 = (Returned b2, v3) →
       add_remote_path_mapping service self "rdtclient" "/data/downloads"
         "/data/downloads" v3 = (Returned b3, v4) →
       configure_sonarr service env false polls v = (Returned true, v4))
  ∧ (∀ env polls v v1 v2 v3 v4 b1 b2 b3,
       let self := new_ArrApp "Radarr" "http://localhost:7878" (env !! "RADARR_API_KEY") in
       missing (env !! "RADARR_API_KEY") = false →
       wait_for_ready service self polls v = (Returned true, v1) →
       add_download_client service self "http://rdtclient:6500" "radarr" v1
       = (Returned b1, v2) →
       add_root_folder service self "/movies" v2 = (Returned b2, v3) →
       add_remote_path_mapping service self "rdtclient" "/data/downloads"
         "/data/downloads" v3 = (Returned b3, v4) →
       configure_radarr service env false polls v = (Returned true, v4))
  ∧ (∀ env dry polls v v',
       configure_sonarr service env dry polls v = (Returned false, v') →
       missing (env !! "SONARR_API_KEY") = true
       ∨ wait_for_ready service
           (new_ArrApp "Sonarr" "http://localhost:8989" (env !! "SONARR_API_KEY"))
           polls v = (Returned false, v'))
  ∧ (∀ env dry polls v v',
       configure_radarr service env dry polls v = (Returned false, v') →
       missing (env !! "RADARR_API_KEY") = true
       ∨ wait_for_ready service
           (new_ArrApp "Radarr" "http://localhost:7878" (env !! "RADARR_API_KEY"))
           polls v = (Returned false, v'))
  ∧ (∀ env dry polls v v',
       configure_prowlarr service env dry polls v = (Returned false, v') →
       missing (env !! "PROWLARR_API_KEY") = true
       ∨ wait_for_ready service
           (new_ArrApp "Prowlarr" "http://localhost:9696" (env !! "PROWLARR_API_KEY"))
           polls v = (Returned false, v')).
Proof.
  split; [exact main_exit_status|].
  split; [|split; [|split; [|split]]].
  - intros env polls v v1 v2 v3 v4 b1 b2 b3 self Hkey Hready.
    unfold configure_sonarr. fold self. configured_anyway Hkey Hready.
  - intros env polls v v1 v2 v3 v4 b1 b2 b3 self Hkey Hready.
    unfold configure_radarr. fold self. configured_anyway Hkey Hready.
  - exact configure_sonarr_false.
  - exact configure_radarr_false.
  - exact configure_prowlarr_false.
Qed.

End DriverFacts.

(** ** Webhook Relay *)

Section WebhookFacts.

Import Webhook.

Variable str_other : json → string.
Variable shell : string → Z.

Lemma title_series (fields info : list (string * json)) (t : json) :
  assoc "series" fields = Some (JDict info) →
  assoc "title" info = Some t →
  truthy t = true →
  title (JDict fields) = Returned t.
Proof. intros Hseries Htitle Ht. unfold title. simpl. by rewrite Hseries; simpl; rewrite Htitle; simpl; rewrite Ht. Qed.

(** Without a truthy series title, the title is taken from the movie. *)
Lemma title_falls_back (fields : list (string * json)) :
  untitled "series" fields ∨ falsy_title "series" fields →
  title (JDict fields)
  = match dict_get (JDict fields) "movie" (JDict []) with
    | Returned movie_info => dict_get movie_info "title" (JStr "Unknown")
    | Raised e => Raised e
    end.
Proof.
  unfold title. simpl.
  intros [[Hseries|(info & Hseries & Htitle)]|(info & t & Hseries & Htitle & Ht)];
    rewrite Hseries; simpl; [done| |]; by rewrite Htitle; simpl; rewrite ?Ht.
Qed.


(** The run of the handler once the title is known. *)
Lemma do_POST_run (self : post) (n : Z) (fields : list (string * json)) (t : json) :
  from_option Str.int (Some 0) (content_length self) = Some n →
  read_json self n = Returned (JDict fields) →
  title (JDict fields) = Returned t →
  do_POST str_other shell self
  = if Str.contains nul (alert str_other t)
    then (Raised ValueError, [OsSystem (alert str_other t)])
    else (Returned tt, [OsSystem (alert str_other t); SendResponse 200; EndHeaders]).
Proof.
  intros Hlength Hbody Htitle. unfold do_POST, os_system.
  rewrite Hlength, Hbody. simpl dict_get. cbv iota. rewrite Htitle.
  by destruct (Str.contains nul _).
Qed.

Lemma commands_run (self : post) (n : Z) (fields : list (string * json)) (t : json) :
  from_option Str.int (Some 0) (content_length self) = Some n →
  read_json self n = Returned (JDict fields) →
  title (JDict fields) = Returned t →
  commands (snd (do_POST str_other shell self)) = [alert str_other t].
Proof.
  intros Hlength Hbody Htitle.
  rewrite (do_POST_run self n fields t Hlength Hbody Htitle).
  by destruct (Str.contains nul _).
Qed.

(** C8, as amended. For a request whose body decodes to an object: when
    the series is an object with a truthy title (a non-empty string),
    [os.system] is called once, with the command line in which that title
    is followed by " is ready to watch!"; when the series has no title, or
    a falsy one (the empty string, null), the title of the movie object is
    used instead; and when the movie has no title either, the title is
    "Unknown". *)
Theorem alert_names_the_title (self : post) (n : Z) (fields : list (string * json)) :
  from_option Str.int (Some 0) (content_length self) = Some n →
  read_json self n = Returned (JDict fields) →
  (∀ info t,
     assoc "series" fields = Some (JDict info) →
     assoc "title" info = Some t →
     truthy t = true →
     commands (snd (do_POST str_other shell self)) = [alert str_other t])
  ∧ (∀ info t,
       untitled "series" fields ∨ falsy_title "series" fields →
       assoc "movie" fields = Some (JDict info) →
       assoc "title" info = Some t →
       commands (snd (do_POST str_other shell self)) = [alert str_other t])
  ∧ (untitled "series" fields ∨ falsy_title "series" fields →
     untitled "movie" fields →
     commands (snd (do_POST str_other shell self)) = [alert str_other (JStr "Unknown")])
  ∧ (∀ s, alert str_other (JStr s)
          = "bash scripts/phase2/send_alert.sh info " +:+ quote +:+ "Media Ready"
            +:+ quote +:+ " " +:+ quote +:+ s +:+ " is ready to watch!" +:+ quote).
Proof.
  intros Hlength Hbody. repeat split.
  - intros info t Hseries Htitle Ht.
    apply (commands_run self n fields t Hlength Hbody).
    by apply (title_series fields info).
  - intros info t Hnone Hmovie Htitle.
    apply (commands_run self n fields t Hlength Hbody).
    rewrite (title_falls_back fields Hnone). simpl.
    by rewrite Hmovie; simpl; rewrite Htitle.
  - intros Hnone Hmovie.
    apply (commands_run self n fields _ Hlength Hbody).
    rewrite (title_falls_back fields Hnone). simpl.
    destruct Hmovie as [Hmovie|(info & Hmovie & Htitle)];
      rewrite Hmovie; simpl; [done|]. by rewrite Htitle.
Qed.


End WebhookFacts.

(** ** The theorems on sample inputs *)



(** C3 at a collection whose only mapping has the host and other paths. *)
Lemma mapping_with_host_is_kept_witness :
  let w := Sample.fresh [Response 200 (Some (JList [JDict Sample.stale_mapping]))] in
  let w1 := {| remote := [];
               sent := [api_request GET Sample.sonarr_app "remotePathMapping" None] |} in
  get scripted Sample.sonarr_app "remotePathMapping" w
  = (Returned (JList (JDict <$> [Sample.stale_mapping])), w1)
  ∧ (∃ entry, entry ∈ [Sample.stale_mapping]
              ∧ assoc "host" entry = Some (JStr "rdtclient"))
  ∧ add_remote_path_mapping scripted Sample.sonarr_app "rdtclient"
      "/data/downloads" "/data/downloads" w = (Returned true, w1)
  ∧ count_method POST (sent w1) = O.
Proof.
  intros w w1.
  assert (get scripted Sample.sonarr_app "remotePathMapping" w
          = (Returned (JList (JDict <$> [Sample.stale_mapping])), w1)) as Hget
    by reflexivity.
  assert (∃ entry, entry ∈ [Sample.stale_mapping]
                   ∧ assoc "host" entry = Some (JStr "rdtclient")) as Hentry.
  { exists Sample.stale_mapping. split; [apply list_elem_of_here|reflexivity]. }
  destruct (mapping_with_host_is_kept scripted Sample.sonarr_app "rdtclient"
              "/data/downloads" "/data/downloads" w w1 [Sample.stale_mapping]
              Hget Hentry) as (Hrun & _ & Hcount).
  split_and!; [exact Hget|exact Hentry|exact Hrun|exact Hcount].
Defined.

(** C4 at a collection that holds the client, and at three invocations
    against a service that starts empty. *)
Lemma download_client_created_once_witness :
  let w := Sample.fresh [Response 200 (Some (JList [JDict Sample.rdtclient_entry]))] in
  let w1 := {| remote := [];
               sent := [api_request GET Sample.sonarr_app "downloadclient" None] |} in
  get scripted Sample.sonarr_app "downloadclient" w
  = (Returned (JList (JDict <$> [Sample.rdtclient_entry])), w1)
  ∧ (∃ entry, entry ∈ [Sample.rdtclient_entry]
              ∧ assoc "name" entry = Some (JStr "RdtClient"))
  ∧ add_download_client scripted Sample.sonarr_app "http://rdtclient:6500" "sonarr" w
    = (Returned true, w1)
  ∧ (count_method POST
       (sent (repeatedly 3
                (add_download_client keeping Sample.sonarr_app
                   "http://rdtclient:6500" "sonarr")
                {| remote := JDict <$> []; sent := [] |})) ≤ 1)%nat.
Proof.
  intros w w1.
  assert (get scripted Sample.sonarr_app "downloadclient" w
          = (Returned (JList (JDict <$> [Sample.rdtclient_entry])), w1)) as Hget
    by reflexivity.
  assert (∃ entry, entry ∈ [Sample.rdtclient_entry]
                   ∧ assoc "name" entry = Some (JStr "RdtClient")) as Hentry.
  { exists Sample.rdtclient_entry. split; [apply list_elem_of_here|reflexivity]. }
  destruct download_client_created_once as [Hpresent Honce].
  destruct (Hpresent _ scripted Sample.sonarr_app "http://rdtclient:6500" "sonarr"
              w w1 [Sample.rdtclient_entry] Hget Hentry) as (Hrun & _ & _).
  split_and!; [exact Hget|exact Hentry|exact Hrun|].
  apply (Honce Sample.sonarr_app "http://rdtclient:6500" "sonarr" 3%nat []).
Defined.

(** C5 at the download client of the driver, against a service whose
    collections cannot be fetched. *)
Lemma fetch_failure_still_creates_witness :
  let op := DownloadClient "http://rdtclient:6500" "sonarr" in
  let w := Sample.fresh tt in
  let w1 := {| remote := tt;
               sent := [api_request GET Sample.sonarr_app "downloadclient" None] |} in
  get only_status Sample.sonarr_app (endpoint op) w = (Returned JNull, w1)
  ∧ creation_body op = Returned Sample.rdtclient_config
  ∧ ∃ ok w2,
      run only_status op Sample.sonarr_app w = (Returned ok, w2)
      ∧ sent w2 = [api_request GET Sample.sonarr_app "downloadclient" None;
                   api_request POST Sample.sonarr_app "downloadclient"
                     (Some Sample.rdtclient_config)].
Proof.
  intros op w w1.
  assert (get only_status Sample.sonarr_app (endpoint op) w = (Returned JNull, w1))
    as Hget by reflexivity.
  assert (creation_body op = Returned Sample.rdtclient_config) as Hbody
    by reflexivity.
  destruct (fetch_failure_still_creates only_status) as (Hcreates & _ & _ & _).
  destruct (Hcreates op Sample.sonarr_app w w1 Sample.rdtclient_config Hget Hbody)
    as (_ & ok & w2 & Hrun & Hsent).
  split; [exact Hget|]. split; [exact Hbody|].
  exists ok, w2. split; [exact Hrun|exact Hsent].
Defined.

(** C9 at a root folder that is not there and a creation answered with
    201 and an empty object. *)
Lemma creation_reports_truthiness_witness :
  let op := RootFolder "/tv" in
  let config := JDict [("path", JStr "/tv")] in
  let w := Sample.fresh [Response 200 (Some (JList [])); Response 201 (Some (JDict []))] in
  let w1 := {| remote := [Response 201 (Some (JDict []))];
               sent := [api_request GET Sample.sonarr_app "rootfolder" None] |} in
  get scripted Sample.sonarr_app (endpoint op) w = (Returned (JList []), w1)
  ∧ present (equality_key op).1 (equality_key op).2 (JList []) = Returned false
  ∧ creation_body op = Returned config
  ∧ scripted (remote w1) (api_request POST Sample.sonarr_app (endpoint op) (Some config))
    = (Response 201 (Some (JDict [])), [])
  ∧ 200 ≤ 201 < 300
  ∧ fst (run scripted op Sample.sonarr_app w) = Returned false.
Proof.
  intros op config w w1.
  assert (200 ≤ 201 < 300) as Hstatus by lia.
  destruct (creation_reports_truthiness scripted op Sample.sonarr_app w w1
              (JList []) config 201 (JDict []) [] eq_refl eq_refl eq_refl eq_refl
              Hstatus) as [Hrun _].
  split_and!;
    [reflexivity|reflexivity|reflexivity|reflexivity|lia|lia|by rewrite Hrun].
Defined.

(** C7 at a dry run of Sonarr alone, with its key set and the service up. *)
Lemma dry_run_only_probes_witness :
  let w := Sample.fresh tt in
  let w1 := {| remote := tt; sent := [status_probe Sample.sonarr_app] |} in
  dry_run Sample.only_sonarr_dry = true
  ∧ sends_only GET
      (main only_status Sample.only_sonarr_dry (Some ["SONARR_API_KEY=k"])
         Sample.one_poll)
  ∧ missing (Sample.env !! "SONARR_API_KEY") = false
  ∧ wait_for_ready only_status
      (new_ArrApp "Sonarr" "http://localhost:8989" (Sample.env !! "SONARR_API_KEY"))
      1 w = (Returned true, w1)
  ∧ configure_sonarr only_status Sample.env true 1 w = (Returned true, w1).
Proof.
  intros w w1.
  destruct (dry_run_only_probes only_status) as (Hmain & Hsonarr & _ & _).
  split_and!.
  - reflexivity.
  - apply Hmain. reflexivity.
  - reflexivity.
  - reflexivity.
  - apply Hsonarr; reflexivity.
Defined.

(** C1 at a run for Sonarr alone against a service that is up and whose
    collections can be neither fetched nor extended: the three operations
    return [False] and [configure_sonarr] returns [True]; and at an
    environment without the key. *)
Lemma exit_status_ignores_operations_witness :
  let self := new_ArrApp "Sonarr" "http://localhost:8989" (Sample.env !! "SONARR_API_KEY") in
  let v := Sample.fresh tt in
  let v1 := snd (wait_for_ready only_status self 1 v) in
  let r1 := add_download_client only_status self "http://rdtclient:6500" "sonarr" v1 in
  let r2 := add_root_folder only_status self "/tv" (snd r1) in
  let r3 := add_remote_path_mapping only_status self "rdtclient" "/data/downloads"
              "/data/downloads" (snd r2) in
  missing (Sample.env !! "SONARR_API_KEY") = false
  ∧ wait_for_ready only_status self 1 v = (Returned true, v1)
  ∧ r1 = (Returned false, snd r1)
  ∧ r2 = (Returned false, snd r2)
  ∧ r3 = (Returned false, snd r3)
  ∧ configure_sonarr only_status Sample.env false 1 v = (Returned true, snd r3)
  ∧ configure_sonarr only_status ∅ false 1 v = (Returned false, v)
  ∧ (missing ((∅ : gmap string string) !! "SONARR_API_KEY") = true
     ∨ wait_for_ready only_status
         (new_ArrApp "Sonarr" "http://localhost:8989"
            ((∅ : gmap string string) !! "SONARR_API_KEY")) 1 v
       = (Returned false, v)).
Proof.
  intros self v v1 r1 r2 r3.
  destruct (exit_status_ignores_operations only_status)
    as (_ & Hsonarr & _ & Hfalse & _ & _).
  split_and!.
  - reflexivity.
  - reflexivity.
  - reflexivity.
  - reflexivity.
  - reflexivity.
  - apply (Hsonarr Sample.env 1%nat v v1 (snd r1) (snd r2) (snd r3) false false false);
      reflexivity.
  - reflexivity.
  - apply (Hfalse ∅ false 1%nat v v). reflexivity.
Defined.

(** C1, as stated, fails. In this run for Sonarr alone the service is up
    and the key is set, the three ensure-present operations fail (each
    returns [False]: neither the GET nor the POST gets through), and the
    run ends with exit status 0. *)
Lemma failed_operations_exit_0 :
  let w := Sample.fresh tt in
  let w1 := snd (wait_for_ready only_status Sample.sonarr_app 1 w) in
  let r1 := add_download_client only_status Sample.sonarr_app
              "http://rdtclient:6500" "sonarr" w1 in
  let r2 := add_root_folder only_status Sample.sonarr_app "/tv" (snd r1) in
  let r3 := add_remote_path_mapping only_status Sample.sonarr_app "rdtclient"
              "/data/downloads" "/data/downloads" (snd r2) in
  fst r1 = Returned false
  ∧ fst r2 = Returned false
  ∧ fst r3 = Returned false
  ∧ main only_status Sample.only_sonarr (Some ["SONARR_API_KEY=k"]) Sample.one_poll w
    = (Returned tt, snd r3)
  ∧ exit_status (Returned tt) = 0.
Proof. by vm_compute. Qed.



(** C8 at a series event, a movie event and an event with neither. *)
Lemma alert_names_the_title_witness :
  let run data :=
    Webhook.commands
      (snd (Webhook.do_POST Sample.str_other Sample.shell_fails
              (Sample.event (JDict data)))) in
  assoc "series" Sample.series_event = Some (JDict [("title", JStr "Show A")])
  ∧ truthy (JStr "Show A") = true
  ∧ run Sample.series_event = [Webhook.alert Sample.str_other (JStr "Show A")]
  ∧ (Webhook.untitled "series" Sample.movie_event
     ∨ Webhook.falsy_title "series" Sample.movie_event)
  ∧ assoc "movie" Sample.movie_event = Some (JDict [("title", JStr "Film B")])
  ∧ run Sample.movie_event = [Webhook.alert Sample.str_other (JStr "Film B")]
  ∧ (Webhook.untitled "series" Sample.bare_event
     ∨ Webhook.falsy_title "series" Sample.bare_event)
  ∧ Webhook.untitled "movie" Sample.bare_event
  ∧ run Sample.bare_event = [Webhook.alert Sample.str_other (JStr "Unknown")].
Proof.
  intros run.
  assert (Webhook.untitled "series" Sample.movie_event
          ∨ Webhook.falsy_title "series" Sample.movie_event) as Hmovie
    by (left; left; reflexivity).
  assert (Webhook.untitled "series" Sample.bare_event
          ∨ Webhook.falsy_title "series" Sample.bare_event) as Hbare
    by (left; left; reflexivity).
  assert (Webhook.untitled "movie" Sample.bare_event) as Hnone
    by (left; reflexivity).
  destruct (alert_names_the_title Sample.str_other Sample.shell_fails
              (Sample.event (JDict Sample.series_event)) 64 Sample.series_event
              eq_refl eq_refl) as (Hseries & _ & _ & _).
  destruct (alert_names_the_title Sample.str_other Sample.shell_fails
              (Sample.event (JDict Sample.movie_event)) 64 Sample.movie_event
              eq_refl eq_refl) as (_ & Hfilm & _ & _).
  destruct (alert_names_the_title Sample.str_other Sample.shell_fails
              (Sample.event (JDict Sample.bare_event)) 64 Sample.bare_event
              eq_refl eq_refl) as (_ & _ & Hunknown & _).
  split_and!.
  - reflexivity.
  - reflexivity.
  - apply (Hseries [("title", JStr "Show A")] (JStr "Show A")); reflexivity.
  - exact Hmovie.
  - reflexivity.
  - apply (Hfilm [("title", JStr "Film B")] (JStr "Film B") Hmovie); reflexivity.
  - exact Hbare.
  - exact Hnone.
  - exact (Hunknown Hbare Hnone).
Defined.

(** C8, as stated, fails: the body holds a series title, the empty
    string, and the alert does not use it: the test of [or] takes an
    empty title for a missing one, and the title is "Unknown". *)
Lemma empty_series_title_is_skipped :
  assoc "series" Sample.empty_title_event = Some (JDict [("title", JStr "")])
  ∧ Webhook.commands
      (snd (Webhook.do_POST Sample.str_other Sample.shell_fails
              (Sample.event (JDict Sample.empty_title_event))))
    = [Webhook.alert Sample.str_other (JStr "Unknown")]
  ∧ Webhook.alert Sample.str_other (JStr "Unknown")
    ≠ Webhook.alert Sample.str_other (JStr "").
Proof. split; [reflexivity|]. split; [reflexivity|]. by vm_compute. Qed.

(** * Further properties *)

(** ** Readiness Prober *)

Section ProberFacts.

Context {St : Type}.
Variable service : St → request → reply * St.

(** X1. [wait_for_ready] never raises and sends nothing but its status
    probe, [k] times with [k] at most the number of polls the clock
    allows. It returns [True] exactly when one of the replies the service
    would give to that many probes is a response with status 200 (an
    exception, or any other status, 2xx included, does not count); then
    the [k]-th probe is the first with such a reply and no further probe is
    sent. When it returns [False] all the polls were used. *)
Theorem wait_for_ready_polls (self : ArrApp) (polls : nat) (w : world St) :
  let answers := replies service (status_probe self) polls (remote w) in
  ∃ ready k w',
    wait_for_ready service self polls w = (Returned ready, w')
    ∧ (k ≤ polls)%nat
    ∧ sent w' = sent w ++ replicate k (status_probe self)
    ∧ ready = existsb ready_reply answers
    ∧ (ready = false → k = polls)
    ∧ (ready = true →
       ∃ r, answers !! Nat.pred k = Some r ∧ ready_reply r = true
            ∧ (0 < k)%nat
            ∧ existsb ready_reply (take (Nat.pred k) answers) = false).
Proof.
  cbv zeta. revert w. induction polls as [|polls IH]; intros w.
  - exists false, O, w. split_and!; try done. simpl. by rewrite app_nil_r.
  - simpl wait_for_ready. unfold bind, send.
    destruct (service (remote w) (status_probe self)) as [r s] eqn:Hreply.
    destruct (IH {| remote := s; sent := sent w ++ [status_probe self] |})
      as (ready & k & w' & Hrun & Hle & Hsent & Hready & Hfalse & Htrue).
    cbn [remote sent] in *.
    change (replies service (status_probe self) (S polls) (remote w))
      with (let (r0, s0) := service (remote w) (status_probe self) in
            r0 :: replies service (status_probe self) polls s0).
    rewrite Hreply.
    change (existsb ready_reply (r :: ?rs)) with (ready_reply r || existsb ready_reply rs).
    assert (ready_reply r = false →
            ∃ ready k w',
              wait_for_ready service self polls
                {| remote := s; sent := sent w ++ [status_probe self] |}
              = (Returned ready, w')
              ∧ (k ≤ S polls)%nat
              ∧ sent w' = sent w ++ replicate k (status_probe self)
              ∧ ready = ready_reply r
                        || existsb ready_reply (replies service (status_probe self) polls s)
              ∧ (ready = false → k = S polls)
              ∧ (ready = true →
                 ∃ r', (r :: replies service (status_probe self) polls s) !! Nat.pred k
                       = Some r'
                       ∧ ready_reply r' = true ∧ (0 < k)%nat
                       ∧ existsb ready_reply
                           (take (Nat.pred k)
                              (r :: replies service (status_probe self) polls s))
                         = false)) as Hnext.
    { intros Hr. exists ready, (S k), w'. rewrite Hr. cbn [orb].
      split_and!; try done; try lia.
      - by rewrite Hsent, <- app_assoc.
      - intros H. by rewrite (Hfalse H).
      - intros H. destruct (Htrue H) as (r' & Hr' & Hready' & Hpos & Hnone).
        exists r'. destruct k as [|k]; [lia|]. simpl in *.
        split_and!; try done; try lia. by rewrite Hr. }
    assert (match r with
            | RequestException => wait_for_ready service self polls
            | Response status_code _ =>
                if status_code =? 200 then ret true
                else wait_for_ready service self polls
            end
            = if ready_reply r then ret true else wait_for_ready service self polls)
      as -> by by destruct r.
    destruct (ready_reply r) eqn:Hr; [|by apply Hnext].
    exists true, 1%nat, {| remote := s; sent := sent w ++ [status_probe self] |}.
    split_and!; try done; try lia.
    intros _. exists r. split_and!; [done|done|simpl; lia|done].
Qed.

End ProberFacts.

(** ** Idempotent Configurator *)

Section EnsureFacts.

Context {St : Type}.
Variable service : St → request → reply * St.


(** X3. When the fetched collection is a list of objects none of which
    holds the wanted value under the compared field, the operation sends
    exactly one creation POST, with its creation body, right after the
    GET, and returns the truth value of what the POST returned. *)
Theorem absent_entry_is_created_once (op : ensure) (self : ArrApp)
    (w w1 : world St) (entries : list (list (string * json))) (config : json) :
  get service self (endpoint op) w = (Returned (JList (JDict <$> entries)), w1) →
  (∀ entry, entry ∈ entries →
            assoc (equality_key op).1 entry ≠ Some (JStr (equality_key op).2)) →
  creation_body op = Returned config →
  let create := api_request POST self (endpoint op) (Some config) in
  run service op self w
  = (Returned (truthy (returned_value (service (remote w1) create).1)),
     {| remote := (service (remote w1) create).2;
        sent := sent w ++ [api_request GET self (endpoint op) None; create] |})
  ∧ count_method POST (sent (snd (run service op self w)))
    = S (count_method POST (sent w)).
Proof.
  intros Hget Habsent Hbody create.
  destruct (present_objects (equality_key op).1 (equality_key op).2 entries)
    as (found & Hpresent & Hfound).
  destruct found.
  { destruct (proj1 Hfound eq_refl) as (entry & Hin & Hentry).
    by destruct (Habsent entry Hin). }
  rewrite (run_create service op self w w1 _ config Hget Hpresent Hbody).
  fold create. apply get_sent in Hget. rewrite Hget, <- app_assoc. simpl.
  split; [done|].
  rewrite (count_method_app POST (sent w)).
  change [api_request GET self (endpoint op) None; create]
    with ([api_request GET self (endpoint op) None] ++ [create]).
  rewrite count_method_app, count_post_get. unfold create.
  rewrite count_post_post. lia.
Qed.

Lemma scan_skips_objects (field wanted : string)
    (before : list (list (string * json))) (rest : list json) :
  (∀ entry, entry ∈ before → assoc field entry ≠ Some (JStr wanted)) →
  scan field wanted ((JDict <$> before) ++ rest) = scan field wanted rest.
Proof.
  induction before as [|entry before IH]; intros Habsent; [done|].
  simpl. destruct (assoc field entry) as [v|] eqn:Hv; simpl.
  - destruct (eq_str v wanted) eqn:Heq.
    + apply eq_str_true in Heq as ->.
      by destruct (Habsent entry (list_elem_of_here _ _)).
    + apply IH. intros e He. apply Habsent. by apply list_elem_of_further.
  - apply IH. intros e He. apply Habsent. by apply list_elem_of_further.
Qed.

Lemma scan_first_match (field wanted : string)
    (before : list (list (string * json))) (entry : list (string * json))
    (after : list json) :
  assoc field entry = Some (JStr wanted) →
  scan field wanted ((JDict <$> before) ++ JDict entry :: after) = Returned true.
Proof.
  intros Hentry. induction before as [|e before IH]; simpl.
  - rewrite Hentry. simpl. by rewrite String.eqb_refl.
  - destruct (assoc field e) as [v|]; simpl; [|done].
    by destruct (eq_str v wanted).
Qed.

(** X4. The scan stops at the first entry that holds the wanted value:
    when the entries before it are objects, the operation returns [True]
    in the world the GET left, whatever follows that entry in the
    collection, objects or not. *)
Theorem first_match_ends_the_scan (op : ensure) (self : ArrApp) (w w1 : world St)
    (before : list (list (string * json))) (entry : list (string * json))
    (after : list json) :
  get service self (endpoint op) w
  = (Returned (JList ((JDict <$> before) ++ JDict entry :: after)), w1) →
  assoc (equality_key op).1 entry = Some (JStr (equality_key op).2) →
  run service op self w = (Returned true, w1).
Proof.
  intros Hget Hentry. apply (run_found service op self w w1 _ Hget).
  unfold present, iterate.
  assert (truthy (JList ((JDict <$> before) ++ JDict entry :: after)) = true) as ->
    by by destruct before.
  by apply scan_first_match.
Qed.

(** X5. A collection of the wrong shape makes the operation raise once
    the GET is done, before any POST: [AttributeError] for a non-empty JSON
    object (the loop then runs over its keys), for a non-empty string, and
    for a list in which an entry that is not an object comes before any
    entry with the wanted value; [TypeError] for a number other than zero
    and for [true]. *)
Theorem malformed_collection_raises (op : ensure) (self : ArrApp) (w w1 : world St)
    (collection : json) :
  get service self (endpoint op) w = (Returned collection, w1) →
  ((∃ item items, collection = JDict (item :: items))
   ∨ (∃ c s, collection = JStr (String c s))
   ∨ (∃ before bad after,
        collection = JList ((JDict <$> before) ++ bad :: after)
        ∧ (∀ entry, entry ∈ before →
             assoc (equality_key op).1 entry ≠ Some (JStr (equality_key op).2))
        ∧ ∀ fields, bad ≠ JDict fields) →
   run service op self w = (Raised AttributeError, w1))
  ∧ (truthy collection = true →
     (∃ n, collection = JInt n) ∨ (∃ b, collection = JBool b)
     ∨ (∃ x, collection = JFloat x) →
     run service op self w = (Raised TypeError, w1)).
Proof.
  intros Hget.
  assert (∀ e, present (equality_key op).1 (equality_key op).2 collection = Raised e →
               run service op self w = (Raised e, w1)) as Hraise.
  { intros e Hpresent. rewrite run_protocol. unfold bind, lift.
    by rewrite Hget, Hpresent. }
  split.
  - intros [(item & items & ->)|[(c & s & ->)|(before & bad & after & -> & Habsent & Hbad)]];
      apply Hraise.
    + by destruct item.
    + done.
    + unfold present, iterate.
      assert (truthy (JList ((JDict <$> before) ++ bad :: after)) = true) as ->
        by by destruct before.
      rewrite (scan_skips_objects _ _ before (bad :: after) Habsent).
      destruct bad; try done. by destruct (Hbad fields).
  - intros Htruthy [(n & ->)|[(b & ->)|(x & ->)]]; apply Hraise;
      unfold present; by rewrite Htruthy.
Qed.

End EnsureFacts.

(** ** Orchestration Driver *)

Section TrafficFacts.

Context {St : Type}.
Variable service : St → request → reply * St.








Lemma prefix_append (p s : string) : String.prefix p (p +:+ s) = true.
Proof.
  induction p as [|c p IH]; [apply prefix_empty|].
  change (String.prefix (String c p) (String c (p +:+ s)) = true).
  simpl. by destruct (ascii_dec c c).
Qed.













End TrafficFacts.

Section SequenceFacts.

Context {St : Type}.
Variable service : St → request → reply * St.

(** X7. When the API key of every selected service is missing from
    [.env], or empty there (an empty [.env], say), the run sends no request
    at all and ends with exit status 1, in the world it started in. *)
Theorem run_without_keys_sends_nothing (args : arguments) (lines : list string)
    (env : gmap string string) (time : clock) (w : world St) :
  load_env (Some lines) = Returned env →
  (selects (app args) sonarr = true → missing (env !! "SONARR_API_KEY") = true) →
  (selects (app args) radarr = true → missing (env !! "RADARR_API_KEY") = true) →
  (selects (app args) prowlarr = true → missing (env !! "PROWLARR_API_KEY") = true) →
  main service args (Some lines) time w = (Raised (SystemExit 1), w)
  ∧ exit_status (fst (main service args (Some lines) time w)) = 1.
Proof.
  intros Henv Hsonarr Hradarr Hprowlarr.
  assert (main service args (Some lines) time w = (Raised (SystemExit 1), w)) as Hrun.
  { unfold main, bind, lift, stage. rewrite Henv.
    unfold configure_sonarr, configure_radarr, configure_prowlarr.
    destruct (app args); simpl in *;
      rewrite ?(Hsonarr eq_refl), ?(Hradarr eq_refl), ?(Hprowlarr eq_refl); done. }
  by rewrite Hrun.
Qed.

(** X8. Nothing is ever changed on Prowlarr: its configuration sends only
    GET requests, with or without [--dry-run]; the flag makes no
    difference to what is sent and returned, and when the API key is set
    the function does and returns what the readiness probe does. *)
Theorem prowlarr_is_only_probed (env : gmap string string) (dry : bool)
    (polls : nat) (w : world St) :
  sends_only GET (configure_prowlarr service env dry polls)
  ∧ configure_prowlarr service env dry polls w
    = configure_prowlarr service env (negb dry) polls w
  ∧ (missing (env !! "PROWLARR_API_KEY") = false →
     configure_prowlarr service env dry polls w
     = wait_for_ready service
         (new_ArrApp "Prowlarr" "http://localhost:9696" (env !! "PROWLARR_API_KEY"))
         polls w).
Proof.
  split; [apply configure_prowlarr_gets|].
  unfold configure_prowlarr, bind.
  destruct (missing _); [by split|].
  destruct (wait_for_ready_returns service
              (new_ArrApp "Prowlarr" "http://localhost:9696"
                 (env !! "PROWLARR_API_KEY")) polls w) as (ready & w1 & Hready).
  rewrite Hready. by destruct ready, dry.
Qed.

(** X9. With [--app all] the three services are configured in the order
    Sonarr, Radarr, Prowlarr, each in the world the one before left. A
    [False] from one of them does not stop the run: the others are still
    configured, and the run then ends with exit status 1. An exception
    from one of them does stop it: the services after it are not
    contacted. *)
Theorem services_run_in_order (args : arguments) (lines : list string)
    (env : gmap string string) (time : clock) (w : world St) :
  load_env (Some lines) = Returned env →
  app args = all →
  let sonarr_run := configure_sonarr service env (dry_run args) (sonarr_polls time) in
  let radarr_run := configure_radarr service env (dry_run args) (radarr_polls time) in
  let prowlarr_run := configure_prowlarr service env (dry_run args) (prowlarr_polls time) in
  (∀ ok1 ok2 ok3 w1 w2 w3,
     sonarr_run w = (Returned ok1, w1) →
     radarr_run w1 = (Returned ok2, w2) →
     prowlarr_run w2 = (Returned ok3, w3) →
     main service args (Some lines) time w
     = (if ok1 && ok2 && ok3 then Returned tt else Raised (SystemExit 1), w3))
  ∧ (∀ e w1, sonarr_run w = (Raised e, w1) →
             main service args (Some lines) time w = (Raised e, w1))
  ∧ (∀ ok1 e w1 w2,
       sonarr_run w = (Returned ok1, w1) →
       radarr_run w1 = (Raised e, w2) →
       main service args (Some lines) time w = (Raised e, w2)).
Proof.
  intros Henv Happ sonarr_run radarr_run prowlarr_run.
  subst sonarr_run radarr_run prowlarr_run.
  unfold main, bind, lift, stage. rewrite Henv, Happ.
  cbv beta iota delta [selects]. unfold bind.
  unfold ret, raise.
  split_and!.
  - intros ok1 ok2 ok3 w1 w2 w3 H1 H2 H3. rewrite H1, H2, H3.
    by destruct ok1, ok2, ok3.
  - intros e w1 H1. by rewrite H1.
  - intros ok1 e w1 w2 H1 H2. by rewrite H1, H2.
Qed.

End SequenceFacts.

(** ** Environment Loader *)

Lemma append_cons (c : ascii) (s t : string) : String c s +:+ t = String c (s +:+ t).
Proof. reflexivity. Qed.

Lemma append_empty (t : string) : EmptyString +:+ t = t.
Proof. reflexivity. Qed.

Lemma last_value_elem (key value : string) (entries : list (string * string)) :
  last_value key entries = Some value → (key, value) ∈ entries.
Proof.
  induction entries as [|[k v] rest IH]; simpl; [done|].
  destruct (last_value key rest) as [w|].
  - intros [= ->]. apply list_elem_of_further. by apply IH.
  - destruct (String.eqb_spec k key) as [->|]; [|done].
    intros [= ->]. apply list_elem_of_here.
Qed.

Lemma last_value_snoc (key k v : string) (entries : list (string * string)) :
  last_value key (entries ++ [(k, v)])
  = if String.eqb k key then Some v else last_value key entries.
Proof.
  induction entries as [|[k' v'] rest IH]; simpl; [done|].
  rewrite IH. by destruct (String.eqb k key).
Qed.

Lemma before_first_lacks (c : ascii) (s : string) :
  Str.contains (String c EmptyString) (before_first c s) = false.
Proof.
  induction s as [|d rest IH]; [done|]. simpl.
  destruct (Ascii.eqb_spec d c) as [->|Hne]; [done|].
  rewrite contains_char, IH. by destruct (Ascii.eqb_spec d c).
Qed.

Lemma lstrip_by_length (p : ascii → bool) (s : string) :
  (String.length (Str.lstrip_by p s) ≤ String.length s)%nat.
Proof.
  induction s as [|d rest IH]; simpl; [done|].
  destruct (p d); simpl; lia.
Qed.

(** A string that [lstrip] leaves alone is empty or starts with a character
    that is kept. *)
Lemma lstrip_by_fixed (p : ascii → bool) (s : string) :
  Str.lstrip_by p s = s →
  s = EmptyString ∨ ∃ c rest, s = String c rest ∧ p c = false.
Proof.
  destruct s as [|c rest]; [by left|]. simpl.
  destruct (p c) eqn:Hc; [|right; by eexists _, _].
  intros H. pose proof (lstrip_by_length p rest) as Hle.
  rewrite H in Hle. simpl in Hle. lia.
Qed.

Lemma rstrip_by_head (p : ascii → bool) (c : ascii) (rest : string) :
  p c = false → ∃ rest', Str.rstrip_by p (String c rest) = String c rest'.
Proof.
  intros Hc. simpl. destruct (Str.rstrip_by p rest); rewrite ?Hc; by eexists.
Qed.

Lemma lstrip_strip (s : string) :
  Str.lstrip_by Str.isspace (Str.strip s) = Str.strip s.
Proof. unfold Str.strip. by rewrite strip_by_comm, lstrip_by_idem. Qed.

(** A stripped string is empty or starts with a character that is not
    whitespace, and stripping keeps that character in front. *)
Lemma strip_head (s : string) :
  Str.strip s = EmptyString
  ∨ ∃ c rest, Str.strip s = String c rest ∧ Str.isspace c = false.
Proof. apply lstrip_by_fixed, lstrip_strip. Qed.

Lemma strip_keeps_head (c : ascii) (rest : string) :
  Str.isspace c = false → ∃ rest', Str.strip (String c rest) = String c rest'.
Proof.
  intros Hc. unfold Str.strip. simpl. rewrite Hc. by apply rstrip_by_head.
Qed.

Lemma starts_with_hash (c : ascii) (rest : string) :
  Str.startswith (String c rest) "#" = Ascii.eqb c "#"%char.
Proof.
  unfold Str.startswith.
  change (String.prefix "#" (String c rest))
    with (if ascii_dec "#"%char c then String.prefix EmptyString rest else false).
  destruct (ascii_dec "#"%char c) as [<-|Hne]; [by rewrite prefix_empty|].
  destruct (Ascii.eqb_spec c "#"%char); congruence.
Qed.

(** What an entry of a line looks like. *)
Lemma stripped_entry_shape (raw key value : string) :
  stripped_entry raw = Some (key, value) →
  Str.strip key = key ∧ Str.strip value = value
  ∧ Str.contains "=" key = false ∧ Str.startswith key "#" = false.
Proof.
  unfold stripped_entry, entry_of.
  destruct (negb _ && negb (Str.startswith (Str.strip raw) "#")
            && Str.contains "=" (Str.strip raw)) eqn:Htests; [|done].
  intros [= <- <-].
  apply andb_true_iff in Htests as [[_ Hhash]%andb_true_iff Heq].
  apply negb_true_iff in Hhash.
  split_and!; try apply strip_idem.
  - unfold Str.strip.
    rewrite (contains_rstrip _ _ space_not_equals),
      (contains_lstrip _ _ space_not_equals).
    apply before_first_lacks.
  - rewrite <- (cut_key raw Heq).
    destruct (strip_head raw) as [Hempty|(c & rest & Hline & Hc)].
    + by rewrite Hempty.
    + rewrite Hline in Hhash |- *. rewrite starts_with_hash in Hhash. simpl.
      destruct (Ascii.eqb c "="%char) eqn:Hsep; [done|].
      destruct (strip_keeps_head c (before_first "=" rest) Hc) as (rest' & ->).
      by rewrite starts_with_hash.
Qed.

(** X10. Every key that [load_env] returns is stripped of surrounding
    whitespace, holds no '=' and does not start with '#', and every value
    is stripped of surrounding whitespace: an API key read from [.env]
    never carries the blanks or the line end of its line. *)
Theorem load_env_keys_and_values_are_clean (lines : list string)
    (env : gmap string string) (key value : string) :
  load_env (Some lines) = Returned env →
  env !! key = Some value →
  Str.strip key = key ∧ Str.strip value = value
  ∧ Str.contains "=" key = false ∧ Str.startswith key "#" = false.
Proof.
  intros Hload Hlookup.
  destruct (env_lines_lookup lines ∅) as (env' & Hrun & Hspec).
  simpl in Hload. rewrite Hrun in Hload. injection Hload as ->.
  rewrite Hspec in Hlookup.
  destruct (last_value key (omap stripped_entry lines)) as [v|] eqn:Hlast;
    [|by rewrite lookup_empty in Hlookup].
  injection Hlookup as ->.
  apply last_value_elem, list_elem_of_omap in Hlast as (raw & _ & Hentry).
  by apply (stripped_entry_shape raw).
Qed.

Lemma contains_append_char (c : ascii) (k v : string) :
  Str.contains (String c EmptyString) (k +:+ String c v) = true.
Proof.
  induction k as [|d k IH].
  - rewrite append_empty, contains_char. by rewrite Ascii.eqb_refl.
  - rewrite append_cons, contains_char, IH. apply orb_true_r.
Qed.

Lemma before_first_append (c : ascii) (k v : string) :
  Str.contains (String c EmptyString) k = false →
  before_first c (k +:+ String c v) = k.
Proof.
  induction k as [|d k IH].
  - intros _. rewrite append_empty. simpl. by rewrite Ascii.eqb_refl.
  - rewrite contains_char, append_cons. intros [Hd Hk]%orb_false_iff.
    simpl. rewrite Hd. by rewrite (IH Hk).
Qed.

Lemma after_first_append (c : ascii) (k v : string) :
  Str.contains (String c EmptyString) k = false →
  after_first c (k +:+ String c v) = v.
Proof.
  induction k as [|d k IH].
  - intros _. rewrite append_empty. simpl. by rewrite Ascii.eqb_refl.
  - rewrite contains_char, append_cons. intros [Hd Hk]%orb_false_iff.
    simpl. rewrite Hd. by apply IH.
Qed.

(** The entry of a line written as a clean key, '=', and a clean value. *)
Lemma stripped_entry_written (key value : string) :
  Str.strip key = key →
  Str.strip value = value →
  Str.contains "=" key = false →
  Str.startswith key "#" = false →
  stripped_entry (key +:+ "=" +:+ value) = Some (key, value).
Proof.
  intros Hkey Hvalue Hsep Hhash.
  change (key +:+ "=" +:+ value) with (key +:+ String "="%char value).
  set (raw := key +:+ String "="%char value).
  assert (Str.contains "=" (Str.strip raw) = true) as Heq.
  { unfold Str.strip.
    rewrite (contains_rstrip _ _ space_not_equals),
      (contains_lstrip _ _ space_not_equals).
    apply contains_append_char. }
  assert (String.eqb (Str.strip raw) "" = false) as Hblank.
  { destruct (String.eqb_spec (Str.strip raw) "") as [Hempty|]; [|done].
    by rewrite Hempty in Heq. }
  assert (Str.startswith (Str.strip raw) "#" = false) as Hcomment.
  { destruct (strip_head key) as [Hempty|(c & rest & Hline & Hc)];
      rewrite Hkey in *.
    - subst key raw. rewrite append_empty.
      destruct (strip_keeps_head "="%char value space_not_equals) as (rest' & ->).
      by rewrite starts_with_hash.
    - subst key raw. rewrite append_cons.
      destruct (strip_keeps_head c (rest +:+ String "="%char value) Hc)
        as (rest' & ->).
      by rewrite starts_with_hash in Hhash |- *. }
  unfold stripped_entry, entry_of.
  rewrite strip_idem, Hblank, Hcomment, Heq. simpl.
  unfold raw.
  by rewrite (before_first_append _ _ _ Hsep), (after_first_append _ _ _ Hsep),
    Hkey, Hvalue.
Qed.

(** X11. Writing then reading: when a file is given one more last line
    made of a key, '=' and a value, where key and value have no
    surrounding whitespace and the key holds no '=' and does not start
    with '#', [load_env] returns the mapping of the shorter file with that
    key set to that value: the new line overrides an earlier value of the
    key and touches no other key. *)
Theorem load_env_reads_an_appended_line (lines : list string) (key value : string) :
  Str.strip key = key →
  Str.strip value = value →
  Str.contains "=" key = false →
  Str.startswith key "#" = false →
  ∃ before after,
    load_env (Some lines) = Returned before
    ∧ load_env (Some (lines ++ [key +:+ "=" +:+ value])) = Returned after
    ∧ after = <[key := value]> before.
Proof.
  intros Hkey Hvalue Hsep Hhash.
  destruct (env_lines_lookup lines ∅) as (before & Hbefore & Hold).
  destruct (env_lines_lookup (lines ++ [key +:+ "=" +:+ value]) ∅)
    as (after & Hafter & Hnew).
  exists before, after. split_and!; [done|done|].
  apply map_eq. intros k. rewrite Hnew, omap_app. simpl.
  rewrite (stripped_entry_written key value Hkey Hvalue Hsep Hhash). simpl.
  rewrite last_value_snoc.
  destruct (String.eqb_spec key k) as [->|Hne].
  - by rewrite lookup_insert_eq.
  - rewrite lookup_insert_ne; [|done]. by rewrite Hold.
Qed.

(** ** Webhook Relay *)

Section RelayFacts.

Import Webhook.

Variable str_other : json → string.
Variable shell : string → Z.

(** X12. Whatever the request, the handler does one of three things: it
    raises before doing anything; it calls [os.system] once and raises
    [ValueError] (a null character in the command line); or it calls
    [os.system] once, then sends status 200 and ends the headers, and
    returns. So it never answers without having run the alert, never
    answers with another status than 200, never writes a body and never
    runs two commands. *)
Theorem do_POST_effects (self : post) :
  let outcome := do_POST str_other shell self in
  (snd outcome = [] ∧ ∃ e, fst outcome = Raised e)
  ∨ (∃ command, snd outcome = [OsSystem command] ∧ fst outcome = Raised ValueError)
  ∨ (∃ command,
       snd outcome = [OsSystem command; SendResponse 200; EndHeaders]
       ∧ fst outcome = Returned tt).
Proof.
  cbv zeta. unfold do_POST, os_system.
  destruct (from_option Str.int (Some 0) (content_length self)) as [n|];
    [|left; by eauto].
  destruct (read_json self n) as [data|e]; [|left; by eauto].
  destruct (dict_get data "eventType" (JStr "Unknown")) as [event_type|e];
    [|left; by eauto].
  destruct (title data) as [series|e]; [|left; by eauto].
  destruct (Str.contains nul (alert str_other series)); right; [left|right];
    by eexists.
Qed.

Lemma do_POST_no_title (self : post) (n : Z) (data : json) (e : exn) :
  from_option Str.int (Some 0) (content_length self) = Some n →
  read_json self n = Returned data →
  (dict_get data "eventType" (JStr "Unknown") = Raised e
   ∨ (∃ fields, data = JDict fields) ∧ title data = Raised e) →
  do_POST str_other shell self = (Raised e, []).
Proof.
  intros Hlength Hbody Hcase. unfold do_POST. rewrite Hlength, Hbody.
  destruct Hcase as [->|[(fields & ->) Htitle]]; [done|].
  simpl dict_get. cbv iota. by rewrite Htitle.
Qed.

(** X13. A body that decodes, but not to the expected shape, makes the
    handler raise [AttributeError] before the alert is run and before
    anything is answered: a body that is not a JSON object (a list, a
    string, a number, null), an object whose [series] is not an object,
    and an object without a truthy series title whose [movie] is not an
    object. *)
Theorem do_POST_wrong_shape (self : post) (n : Z) (data : json) :
  from_option Str.int (Some 0) (content_length self) = Some n →
  read_json self n = Returned data →
  (∀ fields, data ≠ JDict fields)
  ∨ (∃ fields v, data = JDict fields ∧ assoc "series" fields = Some v
                 ∧ ∀ info, v ≠ JDict info)
  ∨ (∃ fields v, data = JDict fields
                 ∧ (untitled "series" fields ∨ falsy_title "series" fields)
                 ∧ assoc "movie" fields = Some v ∧ ∀ info, v ≠ JDict info) →
  do_POST str_other shell self = (Raised AttributeError, []).
Proof.
  intros Hlength Hbody Hshape.
  apply (do_POST_no_title self n data AttributeError Hlength Hbody).
  destruct Hshape as [Hdata|[(fields & v & -> & Hseries & Hv)
                            |(fields & v & -> & Hnone & Hmovie & Hv)]].
  - left. destruct data; try done. by destruct (Hdata fields).
  - right. split; [by eexists|]. unfold title. simpl. rewrite Hseries. simpl.
    destruct v; try done. by destruct (Hv fields0).
  - right. split; [by eexists|]. rewrite (title_falls_back fields Hnone).
    simpl. rewrite Hmovie. simpl.
    destruct v; try done. by destruct (Hv fields0).
Qed.

(** X14. The [Content-Length] header decides what is read. A header that
    is not an integer makes the handler raise [ValueError] before the
    body is read; without the header the handler reads zero bytes, as for
    the header "0"; and two requests with the same header whose bodies
    decode alike at the declared length are handled alike. *)
Theorem do_POST_declared_length :
  (∀ self text,
     content_length self = Some text → Str.int text = None →
     do_POST str_other shell self = (Raised ValueError, []))
  ∧ (∀ self,
       content_length self = None →
       do_POST str_other shell self
       = do_POST str_other shell
           {| content_length := Some "0"; read_json := read_json self |})
  ∧ (∀ self other n,
       content_length self = content_length other →
       from_option Str.int (Some 0) (content_length self) = Some n →
       read_json self n = read_json other n →
       do_POST str_other shell self = do_POST str_other shell other).
Proof.
  split_and!.
  - intros self text Hheader Hint. unfold do_POST. by rewrite Hheader; simpl; rewrite Hint.
  - intros self Hheader. unfold do_POST. by rewrite Hheader.
  - intros self other n Hheader Hlength Hbody. unfold do_POST.
    by rewrite <- Hheader, Hlength, Hbody.
Qed.

(** X15. The event type plays no part: a body with a leading [eventType]
    item, whatever its value, is handled like the body without that item
    (same command, same answer, same exception). *)
Theorem do_POST_ignores_event_type (self other : post) (n : Z)
    (fields : list (string * json)) (kind : json) :
  from_option Str.int (Some 0) (content_length self) = Some n →
  from_option Str.int (Some 0) (content_length other) = Some n →
  read_json self n = Returned (JDict (("eventType", kind) :: fields)) →
  read_json other n = Returned (JDict fields) →
  do_POST str_other shell self = do_POST str_other shell other.
Proof.
  intros Hself Hother Hbody Hbody'. unfold do_POST.
  by rewrite Hself, Hother, Hbody, Hbody'.
Qed.

End RelayFacts.

(** ** Repeated invocations of any operation *)

Lemma creation_body_holds_key (op : ensure) (config : json) :
  creation_body op = Returned config →
  ∃ fields, config = JDict fields
    ∧ assoc (equality_key op).1 fields = Some (JStr (equality_key op).2).
Proof.
  destruct op as [rdt_url category|path|host remote_path local_path]; simpl.
  - intros Hconfig.
    destruct (client_config_named _ _ _ Hconfig) as (fields & -> & Hname & _).
    by exists fields.
  - intros [= <-]. by eexists.
  - intros [= <-]. by eexists.
Qed.

(** Once the entry is in the collection, or when the creation body cannot
    be built, invocations leave the collection as it is and send no POST. *)
Lemma settled_store (op : ensure) (self : ArrApp) (n : nat) :
  ∀ (entries : list (list (string * json))) (qs : list request),
    (∃ entry, entry ∈ entries
              ∧ assoc (equality_key op).1 entry = Some (JStr (equality_key op).2))
    ∨ (∃ e, creation_body op = Raised e) →
    let w' := repeatedly n (run keeping op self)
                {| remote := JDict <$> entries; sent := qs |} in
    remote w' = JDict <$> entries
    ∧ count_method POST (sent w') = count_method POST qs.
Proof.
  induction n as [|n IH]; intros entries qs Hsettled; cbv zeta; [done|].
  set (w := {| remote := JDict <$> entries; sent := qs |}).
  change (repeatedly (S n) ?op w) with (repeatedly n op (snd (op w))).
  pose proof (keeping_get self (endpoint op) (JDict <$> entries) qs) as Hget.
  destruct (present_objects (equality_key op).1 (equality_key op).2 entries)
    as (found & Hpresent & Hfound).
  destruct (IH entries (qs ++ [api_request GET self (endpoint op) None]) Hsettled)
    as [Hstore Hcount].
  cbv zeta in Hstore, Hcount.
  rewrite count_method_app, count_post_get in Hcount.
  destruct found.
  - rewrite (run_found keeping op self w _ _ Hget Hpresent). simpl snd.
    split; [done|lia].
  - destruct Hsettled as [Hentry|(e & Hbody)].
    + apply Hfound in Hentry. discriminate.
    + rewrite (run_raises keeping op self w _ _ e Hget Hpresent Hbody).
      simpl snd. split; [done|lia].
Qed.

(** X16. Each of the three operations is idempotent against a service
    that keeps the objects it is sent: from any collection of objects,
    one invocation or more leave the collection that the first one left,
    and however many invocations are made, at most one POST is sent. *)
Theorem ensure_is_idempotent (op : ensure) (self : ArrApp) (n : nat)
    (entries : list (list (string * json))) :
  let invoke := run keeping op self in
  let w := {| remote := JDict <$> entries; sent := [] |} in
  remote (repeatedly (S n) invoke w) = remote (repeatedly 1 invoke w)
  ∧ (count_method POST (sent (repeatedly n invoke w)) ≤ 1)%nat.
Proof.
  cbv zeta.
  set (w := {| remote := JDict <$> entries; sent := [] |}).
  pose proof (keeping_get self (endpoint op) (JDict <$> entries) []) as Hget.
  fold w in Hget.
  destruct (present_objects (equality_key op).1 (equality_key op).2 entries)
    as (found & Hpresent & Hfound).
  assert (∀ m, remote (repeatedly (S m) (run keeping op self) w)
               = remote (snd (run keeping op self w))
               ∧ (count_method POST (sent (repeatedly (S m) (run keeping op self) w))
                  ≤ 1)%nat) as Hsteps.
  { intros m.
    change (repeatedly (S m) ?f w) with (repeatedly m f (snd (f w))).
    destruct found.
    - rewrite (run_found keeping op self w _ _ Hget Hpresent). cbn [snd].
      destruct (settled_store op self m entries
                  ([] ++ [api_request GET self (endpoint op) None])) as [-> ->];
        [left; by apply Hfound|].
      split; [done|]. rewrite count_method_app, count_post_get. simpl. lia.
    - destruct (creation_body op) as [config|e] eqn:Hbody.
      + rewrite (run_create keeping op self w _ _ config Hget Hpresent Hbody).
        simpl snd.
        destruct (creation_body_holds_key op config Hbody) as (fields & -> & Hkey).
        replace ((JDict <$> entries) ++ [JDict fields])
          with (JDict <$> (entries ++ [fields])) by by rewrite fmap_app.
        destruct (settled_store op self m (entries ++ [fields])
                    [api_request GET self (endpoint op) None;
                     api_request POST self (endpoint op) (Some (JDict fields))])
          as [-> ->].
        * left. exists fields. split; [|done]. apply elem_of_app. right.
          apply list_elem_of_here.
        * split; [done|].
          change (count_method POST [?a; ?b]) with (count_method POST ([a] ++ [b])).
          rewrite count_method_app, count_post_get, count_post_post. lia.
      + rewrite (run_raises keeping op self w _ _ e Hget Hpresent Hbody).
        cbn [snd].
        destruct (settled_store op self m entries
                    ([] ++ [api_request GET self (endpoint op) None])) as [-> ->];
          [right; by exists e|].
        split; [done|]. rewrite count_method_app, count_post_get. simpl. lia. }
  split.
  - destruct (Hsteps n) as [-> _]. by destruct (Hsteps O) as [-> _].
  - destruct n as [|m]; [cbv; lia|]. by destruct (Hsteps m) as [_ Hle].
Qed.

(** ** The URL of the download client *)

Lemma replace_absent (old new s : string) :
  Str.contains old s = false → Str.replace old new s = s.
Proof.
  unfold Str.replace. induction s as [|c rest IH]; [done|].
  simpl Str.contains. intros [Hhere Hrest]%orb_false_iff.
  simpl Str.replace_go. rewrite Hhere. by rewrite (IH Hrest).
Qed.

Lemma prefix_cons (c d : ascii) (u t : string) :
  String.prefix (String c u) (String d t) = true → c = d ∧ String.prefix u t = true.
Proof. simpl. by destruct (ascii_dec c d). Qed.

Lemma prefix_has_char (c : ascii) (u v t : string) :
  String.prefix (u +:+ String c v) t = true →
  Str.contains (String c EmptyString) t = true.
Proof.
  revert t. induction u as [|d u IH]; intros [|e t].
  - done.
  - rewrite append_empty. intros [-> _]%prefix_cons.
    by rewrite contains_char, Ascii.eqb_refl.
  - done.
  - rewrite append_cons. intros [-> H]%prefix_cons.
    rewrite contains_char, (IH t H). apply orb_true_r.
Qed.

Lemma contains_cons (sub : string) (c : ascii) (s : string) :
  Str.contains sub (String c s) = String.prefix sub (String c s) || Str.contains sub s.
Proof. reflexivity. Qed.

Lemma contains_needs_char (c : ascii) (u v t : string) :
  Str.contains (String c EmptyString) t = false →
  Str.contains (u +:+ String c v) t = false.
Proof.
  induction t as [|e t IH].
  - intros _. by destruct u.
  - intros Hnone. pose proof Hnone as Hboth.
    rewrite contains_char in Hboth. apply orb_false_iff in Hboth as [_ Hrest].
    rewrite contains_cons, (IH Hrest), orb_false_r.
    destruct (String.prefix _ _) eqn:H; [|done].
    apply prefix_has_char in H. congruence.
Qed.

(** Two strings cut at the first occurrence of [c]: one is a prefix of the
    other only when the parts before [c] are the same. *)
Lemma prefix_same_cut (c : ascii) (u v h p : string) :
  Str.contains (String c EmptyString) u = false →
  Str.contains (String c EmptyString) h = false →
  String.prefix (u +:+ String c v) (h +:+ String c p) = true →
  u = h ∧ String.prefix v p = true.
Proof.
  revert h. induction u as [|d u IH]; intros [|e h] Hu Hh.
  - rewrite !append_empty. by intros [_ H]%prefix_cons.
  - rewrite append_empty, append_cons. intros [-> _]%prefix_cons.
    rewrite contains_char, Ascii.eqb_refl in Hh. done.
  - rewrite append_empty, append_cons. intros [-> _]%prefix_cons.
    rewrite contains_char, Ascii.eqb_refl in Hu. done.
  - rewrite !append_cons. intros [-> H]%prefix_cons.
    rewrite contains_char in Hu, Hh.
    apply orb_false_iff in Hu as [_ Hu]. apply orb_false_iff in Hh as [_ Hh].
    destruct (IH h Hu Hh H) as [-> Hv]. done.
Qed.

(** No "http://" lies in a host, a colon and a port, when host and port
    hold no colon and the port does not start with a slash. *)
Lemma no_scheme_inside (h p : string) :
  Str.contains ":" h = false →
  Str.contains ":" p = false →
  String.prefix "/" p = false →
  Str.contains "http://" (h +:+ String ":"%char p) = false.
Proof.
  intros Hh Hp Hslash. induction h as [|d h IH].
  - rewrite append_empty, contains_cons.
    change (String.prefix "http://" (String ":"%char p)) with false.
    apply (contains_needs_char ":"%char "http" "//" p Hp).
  - pose proof Hh as Hboth. rewrite contains_char in Hboth.
    apply orb_false_iff in Hboth as [_ Hrest].
    rewrite append_cons, contains_cons, (IH Hrest), orb_false_r.
    rewrite <- append_cons.
    destruct (String.prefix "http://" _) eqn:H; [|done].
    apply (prefix_same_cut ":"%char "http" "//" (String d h) p eq_refl Hh)
      in H as [_ H].
    destruct p as [|e p]; [done|].
    apply (prefix_cons "/"%char e "/" p) in H as [<- _].
    by destruct p.
Qed.

Lemma split_not_empty (c : ascii) (limit : option nat) (s : string) :
  Str.split c limit s ≠ [].
Proof.
  destruct s as [|d s]; simpl; [done|].
  destruct (Ascii.eqb d c && Str.may_split limit); [done|].
  by destruct (Str.split c limit s).
Qed.

Lemma split_absent (c : ascii) (s : string) :
  Str.contains (String c EmptyString) s = false → Str.split c None s = [s].
Proof.
  induction s as [|d s IH]; [done|].
  rewrite contains_char. intros [Hd Hs]%orb_false_iff.
  simpl. rewrite Hd. simpl. by rewrite (IH Hs).
Qed.

(** [(a + sep + b).split(sep) == a.split(sep) + b.split(sep)] *)
Lemma split_append (c : ascii) (a b : string) :
  Str.split c None (a +:+ String c b) = Str.split c None a ++ Str.split c None b.
Proof.
  induction a as [|d a IH].
  - rewrite append_empty. simpl. by rewrite Ascii.eqb_refl.
  - rewrite append_cons. simpl. rewrite IH.
    destruct (Ascii.eqb d c); simpl; [done|].
    pose proof (split_not_empty c None a) as Hne.
    by destruct (Str.split c None a).
Qed.

Lemma int_of_slash (rest : string) : Str.int (String "/"%char rest) = None.
Proof.
  unfold Str.int.
  by destruct (strip_keeps_head "/"%char rest eq_refl) as (rest' & ->).
Qed.

Lemma int_no_slash (p : string) (n : Z) :
  Str.int p = Some n → String.prefix "/" p = false.
Proof.
  destruct p as [|c p]; [done|].
  destruct (String.prefix "/" (String c p)) eqn:H; [|done].
  apply (prefix_cons "/"%char c "" p) in H as [<- _].
  by rewrite int_of_slash.
Qed.

Lemma replace_scheme (s : string) :
  Str.replace "http://" "" ("http://" +:+ s) = Str.replace "http://" "" s.
Proof.
  unfold Str.replace.
  change (Str.replace_go "http://" "" 0 ("http://" +:+ s))
    with (if String.prefix "http://" ("http://" +:+ s)
          then Str.replace_go "http://" "" 0 s
          else String "h" (Str.replace_go "http://" "" 0 ("ttp://" +:+ s))).
  by rewrite (prefix_append "http://" s).
Qed.

Lemma slashes_hold_no_colon (h : string) :
  Str.contains ":" h = false → Str.contains ":" ("//" +:+ h) = false.
Proof.
  intros Hh. change ("//" +:+ h) with (String "/" (String "/" h)).
  by rewrite !contains_char, Hh.
Qed.

(** [(scheme + "://" + h + ":" + p).split(":")] *)
Lemma url_pieces (scheme h p : string) :
  Str.contains ":" scheme = false →
  Str.contains ":" h = false →
  Str.contains ":" p = false →
  Str.split ":" None (scheme +:+ String ":" (("//" +:+ h) +:+ String ":" p))
  = [scheme; "//" +:+ h; p].
Proof.
  intros Hs Hh Hp. rewrite !split_append.
  by rewrite (split_absent _ _ Hs), (split_absent _ _ (slashes_hold_no_colon h Hh)),
    (split_absent _ _ Hp).
Qed.

Lemma url_without_scheme (h p : string) :
  Str.contains ":" h = false →
  Str.contains ":" p = false →
  String.prefix "/" p = false →
  Str.split ":" None (Str.replace "http://" "" ("http://" +:+ h +:+ ":" +:+ p)) = [h; p].
Proof.
  intros Hh Hp Hslash. rewrite replace_scheme.
  change (h +:+ ":" +:+ p) with (h +:+ String ":" p).
  rewrite (replace_absent _ _ _ (no_scheme_inside h p Hh Hp Hslash)), split_append.
  by rewrite (split_absent _ _ Hh), (split_absent _ _ Hp).
Qed.

(** X17. [add_download_client] reads the host and the port out of the
    RDTClient URL: for every URL "http://<host>:<port>" whose host and port
    hold no colon and whose port is a number for [int], the configuration
    carries that host as its "host" setting, the number as its "port"
    setting, and the category it was given. *)
Theorem client_config_reads_host_and_port (h p category : string) (n : Z) :
  Str.contains ":" h = false →
  Str.contains ":" p = false →
  Str.int p = Some n →
  ∃ config,
    client_config ("http://" +:+ h +:+ ":" +:+ p) category = Returned config
    ∧ setting "host" config = Some (JStr h)
    ∧ setting "port" config = Some (JInt n)
    ∧ setting "category" config = Some (JStr category).
Proof.
  intros Hh Hp Hint. pose proof (int_no_slash p n Hint) as Hslash.
  unfold client_config.
  rewrite (url_without_scheme h p Hh Hp Hslash).
  change ("http://" +:+ h +:+ ":" +:+ p)
    with ("http" +:+ String ":" (("//" +:+ h) +:+ String ":" p)).
  rewrite (url_pieces "http" h p eq_refl Hh Hp).
  cbn [last from_option id]. rewrite Hint.
  eexists. split; [reflexivity|]. by split_and!.
Qed.

(** X18. The URL forms [add_download_client] does not read as meant. Only
    the text "http://" is taken off the URL: for "https://<host>:<port>"
    the "host" setting becomes the word "https" (the port is still read).
    A URL "http://<host>" without a port makes [int] raise [ValueError], so
    no configuration is built. *)
Theorem client_config_other_urls (h p category : string) (n : Z) :
  Str.contains ":" h = false →
  Str.contains ":" p = false →
  Str.int p = Some n →
  (∃ config,
     client_config ("https://" +:+ h +:+ ":" +:+ p) category = Returned config
     ∧ setting "host" config = Some (JStr "https")
     ∧ setting "port" config = Some (JInt n))
  ∧ client_config ("http://" +:+ h) category = Raised ValueError.
Proof.
  intros Hh Hp Hint. pose proof (int_no_slash p n Hint) as Hslash.
  unfold client_config. split.
  - assert (Str.contains "http://" ("https://" +:+ h +:+ ":" +:+ p) = false) as Hnone
      by exact (no_scheme_inside h p Hh Hp Hslash).
    rewrite (replace_absent _ _ _ Hnone).
    change ("https://" +:+ h +:+ ":" +:+ p)
      with ("https" +:+ String ":" (("//" +:+ h) +:+ String ":" p)).
    rewrite (url_pieces "https" h p eq_refl Hh Hp).
    cbn [last head from_option id]. rewrite Hint.
    eexists. split; [reflexivity|]. by split_and!.
  - change ("http://" +:+ h) with ("http" +:+ String ":" ("//" +:+ h)).
    rewrite split_append.
    rewrite (split_absent ":" "http" eq_refl),
      (split_absent _ _ (slashes_hold_no_colon h Hh)).
    change (from_option id "" (last (["http"] ++ ["//" +:+ h])))
      with (String "/" (String "/" h)).
    by rewrite int_of_slash.
Qed.

(** ** The further properties on sample inputs *)

(** X3 at a store that holds another root folder. *)
Lemma absent_entry_is_created_once_witness :
  let op := RootFolder "/tv" in
  let w := Sample.fresh [JDict [("path", JStr "/movies")]] in
  let fetch := api_request GET Sample.sonarr_app "rootfolder" None in
  let create :=
    api_request POST Sample.sonarr_app "rootfolder" (Some (JDict [("path", JStr "/tv")])) in
  get keeping Sample.sonarr_app (endpoint op) w
  = (Returned (JList (JDict <$> [[("path", JStr "/movies")]])),
     {| remote := [JDict [("path", JStr "/movies")]]; sent := [fetch] |})
  ∧ creation_body op = Returned (JDict [("path", JStr "/tv")])
  ∧ run keeping op Sample.sonarr_app w
    = (Returned true,
       {| remote := [JDict [("path", JStr "/movies")]; JDict [("path", JStr "/tv")]];
          sent := [fetch; create] |})
  ∧ count_method POST (sent (snd (run keeping op Sample.sonarr_app w))) = 1%nat.
Proof.
  intros op w fetch create.
  assert (get keeping Sample.sonarr_app (endpoint op) w
          = (Returned (JList (JDict <$> [[("path", JStr "/movies")]])),
             {| remote := [JDict [("path", JStr "/movies")]]; sent := [fetch] |}))
    as Hget by reflexivity.
  assert (creation_body op = Returned (JDict [("path", JStr "/tv")])) as Hbody
    by reflexivity.
  assert (∀ entry, entry ∈ [[("path", JStr "/movies")]] →
                   assoc (equality_key op).1 entry ≠ Some (JStr (equality_key op).2))
    as Hnone.
  { intros entry Hin. apply list_elem_of_singleton in Hin as ->. discriminate. }
  destruct (absent_entry_is_created_once keeping op Sample.sonarr_app w _ _ _
              Hget Hnone Hbody) as [Hrun Hcount].
  split_and!; [exact Hget|exact Hbody|exact Hrun|exact Hcount].
Defined.

(** X4 at a collection whose second entry is the client and whose third
    item is not an object. *)
Lemma first_match_ends_the_scan_witness :
  let op := DownloadClient "http://rdtclient:6500" "sonarr" in
  let w := Sample.fresh
             [Response 200 (Some (JList [JDict Sample.stale_mapping;
                                         JDict Sample.rdtclient_entry;
                                         JStr "junk"]))] in
  let w1 := {| remote := [];
               sent := [api_request GET Sample.sonarr_app "downloadclient" None] |} in
  get scripted Sample.sonarr_app (endpoint op) w
  = (Returned (JList ((JDict <$> [Sample.stale_mapping])
                      ++ JDict Sample.rdtclient_entry :: [JStr "junk"])), w1)
  ∧ assoc (equality_key op).1 Sample.rdtclient_entry = Some (JStr (equality_key op).2)
  ∧ run scripted op Sample.sonarr_app w = (Returned true, w1).
Proof.
  intros op w w1.
  assert (get scripted Sample.sonarr_app (endpoint op) w
          = (Returned (JList ((JDict <$> [Sample.stale_mapping])
                              ++ JDict Sample.rdtclient_entry :: [JStr "junk"])), w1))
    as Hget by reflexivity.
  assert (assoc (equality_key op).1 Sample.rdtclient_entry
          = Some (JStr (equality_key op).2)) as Hentry by reflexivity.
  split_and!; [exact Hget|exact Hentry|].
  exact (first_match_ends_the_scan scripted op Sample.sonarr_app w w1
           [Sample.stale_mapping] Sample.rdtclient_entry [JStr "junk"] Hget Hentry).
Defined.

(** X5 at an error object and at a number in place of the collection. *)
Lemma malformed_collection_raises_witness :
  let op := RootFolder "/tv" in
  let w := Sample.fresh [Response 200 (Some (JDict [("error", JStr "Unauthorized")]))] in
  let w' := Sample.fresh [Response 200 (Some (JInt 5))] in
  let w1 := {| remote := [];
               sent := [api_request GET Sample.sonarr_app "rootfolder" None] |} in
  get scripted Sample.sonarr_app (endpoint op) w
  = (Returned (JDict [("error", JStr "Unauthorized")]), w1)
  ∧ run scripted op Sample.sonarr_app w = (Raised AttributeError, w1)
  ∧ get scripted Sample.sonarr_app (endpoint op) w' = (Returned (JInt 5), w1)
  ∧ run scripted op Sample.sonarr_app w' = (Raised TypeError, w1).
Proof.
  intros op w w' w1.
  assert (get scripted Sample.sonarr_app (endpoint op) w
          = (Returned (JDict [("error", JStr "Unauthorized")]), w1)) as Hget
    by reflexivity.
  assert (get scripted Sample.sonarr_app (endpoint op) w' = (Returned (JInt 5), w1))
    as Hget' by reflexivity.
  destruct (malformed_collection_raises scripted op Sample.sonarr_app w w1 _ Hget)
    as [Hattribute _].
  destruct (malformed_collection_raises scripted op Sample.sonarr_app w' w1 _ Hget')
    as [_ Htype].
  split_and!; [exact Hget| |exact Hget'|].
  - apply Hattribute. left. by eexists _, _.
  - apply Htype; [reflexivity|]. left. by eexists.
Defined.

(** X7 at a [.env] whose only key is empty, for a run over all services. *)
Lemma run_without_keys_sends_nothing_witness :
  let lines := ["# no keys yet"; "SONARR_API_KEY="] in
  let env : gmap string string := <["SONARR_API_KEY" := ""]> ∅ in
  load_env (Some lines) = Returned env
  ∧ missing (env !! "SONARR_API_KEY") = true
  ∧ missing (env !! "RADARR_API_KEY") = true
  ∧ missing (env !! "PROWLARR_API_KEY") = true
  ∧ main only_status every_service (Some lines) Sample.one_poll (Sample.fresh tt)
    = (Raised (SystemExit 1), Sample.fresh tt)
  ∧ exit_status
      (fst (main only_status every_service (Some lines) Sample.one_poll (Sample.fresh tt)))
    = 1.
Proof.
  intros lines env.
  assert (load_env (Some lines) = Returned env) as Henv by reflexivity.
  assert (missing (env !! "SONARR_API_KEY") = true) as Hsonarr by (by vm_compute).
  assert (missing (env !! "RADARR_API_KEY") = true) as Hradarr by (by vm_compute).
  assert (missing (env !! "PROWLARR_API_KEY") = true) as Hprowlarr by (by vm_compute).
  destruct (run_without_keys_sends_nothing only_status every_service lines env
              Sample.one_poll (Sample.fresh tt) Henv
              (λ _, Hsonarr) (λ _, Hradarr) (λ _, Hprowlarr)) as [Hrun Hstatus].
  split_and!; [exact Henv|exact Hsonarr|exact Hradarr|exact Hprowlarr
              |exact Hrun|exact Hstatus].
Defined.

(** X8 with a key for Prowlarr, against a service that is up. *)
Lemma prowlarr_is_only_probed_witness :
  let env : gmap string string := <["PROWLARR_API_KEY" := "c"]> ∅ in
  missing (env !! "PROWLARR_API_KEY") = false
  ∧ configure_prowlarr only_status env false 1 (Sample.fresh tt)
    = wait_for_ready only_status
        (new_ArrApp "Prowlarr" "http://localhost:9696" (env !! "PROWLARR_API_KEY"))
        1 (Sample.fresh tt)
  ∧ configure_prowlarr only_status env false 1 (Sample.fresh tt)
    = configure_prowlarr only_status env true 1 (Sample.fresh tt).
Proof.
  intros env.
  assert (missing (env !! "PROWLARR_API_KEY") = false) as Hkey by (by vm_compute).
  destruct (prowlarr_is_only_probed only_status env false 1%nat (Sample.fresh tt))
    as (_ & Hdry & Hprobe).
  split_and!; [exact Hkey|exact (Hprobe Hkey)|exact Hdry].
Defined.

(** X9 with a key for each service, against a service that is up and
    answers nothing else: the three runs follow each other and the exit
    status is 0. *)
Lemma services_run_in_order_witness :
  let env : gmap string string :=
    <["PROWLARR_API_KEY" := "c"]> (<["RADARR_API_KEY" := "b"]>
      (<["SONARR_API_KEY" := "a"]> ∅)) in
  let w := Sample.fresh tt in
  let w1 := snd (configure_sonarr only_status env false 1 w) in
  let w2 := snd (configure_radarr only_status env false 1 w1) in
  let w3 := snd (configure_prowlarr only_status env false 1 w2) in
  load_env (Some three_keys) = Returned env
  ∧ app every_service = all
  ∧ configure_sonarr only_status env false 1 w = (Returned true, w1)
  ∧ configure_radarr only_status env false 1 w1 = (Returned true, w2)
  ∧ configure_prowlarr only_status env false 1 w2 = (Returned true, w3)
  ∧ main only_status every_service (Some three_keys) Sample.one_poll w = (Returned tt, w3)
  ∧ length (sent w3) = 15%nat.
Proof.
  intros env w w1 w2 w3.
  assert (load_env (Some three_keys) = Returned env) as Henv by reflexivity.
  assert (configure_sonarr only_status env false 1 w = (Returned true, w1)) as H1
    by (by vm_compute).
  assert (configure_radarr only_status env false 1 w1 = (Returned true, w2)) as H2
    by (by vm_compute).
  assert (configure_prowlarr only_status env false 1 w2 = (Returned true, w3)) as H3
    by (by vm_compute).
  destruct (services_run_in_order only_status every_service three_keys env
              Sample.one_poll w Henv eq_refl) as [Hall _].
  split_and!; [exact Henv|reflexivity|exact H1|exact H2|exact H3| |by vm_compute].
  exact (Hall true true true w1 w2 w3 H1 H2 H3).
Defined.

(** X10 at a line with blanks around the key and around the value. *)
Lemma load_env_keys_and_values_are_clean_witness :
  let lines := ["# keys"; "  SONARR_API_KEY =  abc  "] in
  let env : gmap string string := <["SONARR_API_KEY" := "abc"]> ∅ in
  load_env (Some lines) = Returned env
  ∧ env !! "SONARR_API_KEY" = Some "abc"
  ∧ Str.strip "SONARR_API_KEY" = "SONARR_API_KEY"
  ∧ Str.strip "abc" = "abc"
  ∧ Str.contains "=" "SONARR_API_KEY" = false
  ∧ Str.startswith "SONARR_API_KEY" "#" = false.
Proof.
  intros lines env.
  assert (load_env (Some lines) = Returned env) as Henv by reflexivity.
  assert (env !! "SONARR_API_KEY" = Some "abc") as Hkey by (by vm_compute).
  split_and!; [exact Henv|exact Hkey|..];
    apply (load_env_keys_and_values_are_clean lines env "SONARR_API_KEY" "abc" Henv Hkey).
Defined.

(** X11 at a second line for a key the file already holds. *)
Lemma load_env_reads_an_appended_line_witness :
  Str.strip "A" = "A"
  ∧ Str.strip "2" = "2"
  ∧ Str.contains "=" "A" = false
  ∧ Str.startswith "A" "#" = false
  ∧ ∃ before after,
      load_env (Some ["A=1"]) = Returned before
      ∧ load_env (Some (["A=1"] ++ ["A" +:+ "=" +:+ "2"])) = Returned after
      ∧ after = <["A" := "2"]> before.
Proof.
  split_and!; [reflexivity..|].
  exact (load_env_reads_an_appended_line ["A=1"] "A" "2" eq_refl eq_refl eq_refl eq_refl).
Defined.

(** X13 at a body that is a JSON list. *)
Lemma do_POST_wrong_shape_witness :
  let ev := Sample.event (JList []) in
  from_option Str.int (Some 0) (Webhook.content_length ev) = Some 64
  ∧ Webhook.read_json ev 64 = Returned (JList [])
  ∧ (∀ fields, JList [] ≠ JDict fields)
  ∧ Webhook.do_POST Sample.str_other Sample.shell_fails ev = (Raised AttributeError, []).
Proof.
  intros ev.
  assert (∀ fields, JList [] ≠ JDict fields) as Hshape by (intros fields; discriminate).
  split_and!; [reflexivity|reflexivity|exact Hshape|].
  exact (do_POST_wrong_shape Sample.str_other Sample.shell_fails ev 64 (JList [])
           eq_refl eq_refl (or_introl Hshape)).
Defined.

(** X14 at a length that is no number, at a request without the header,
    and at two requests that differ past the declared length. *)
Lemma do_POST_declared_length_witness :
  let bad := {| Webhook.content_length := Some "sixty";
                Webhook.read_json := λ _, Returned (JDict Sample.series_event) |} in
  let bare := {| Webhook.content_length := None;
                 Webhook.read_json := λ _, Returned (JDict Sample.series_event) |} in
  let short := {| Webhook.content_length := Some "2";
                  Webhook.read_json :=
                    λ n, if n =? 2 then Returned (JDict []) else Raised JSONDecodeError |} in
  let long := {| Webhook.content_length := Some "2";
                 Webhook.read_json :=
                   λ n, if n =? 2 then Returned (JDict [])
                        else Returned (JDict Sample.series_event) |} in
  Str.int "sixty" = None
  ∧ Webhook.do_POST Sample.str_other Sample.shell_fails bad = (Raised ValueError, [])
  ∧ Webhook.do_POST Sample.str_other Sample.shell_fails bare
    = Webhook.do_POST Sample.str_other Sample.shell_fails
        {| Webhook.content_length := Some "0";
           Webhook.read_json := Webhook.read_json bare |}
  ∧ Webhook.do_POST Sample.str_other Sample.shell_fails short
    = Webhook.do_POST Sample.str_other Sample.shell_fails long.
Proof.
  intros bad bare short long.
  destruct (do_POST_declared_length Sample.str_other Sample.shell_fails)
    as (Hbad & Hbare & Hsame).
  split_and!; [reflexivity| | |].
  - exact (Hbad bad "sixty" eq_refl eq_refl).
  - exact (Hbare bare eq_refl).
  - exact (Hsame short long 2 eq_refl eq_refl eq_refl).
Defined.

(** X15 at a series event with and without its event type. *)
Lemma do_POST_ignores_event_type_witness :
  let fields := [("series", JDict [("title", JStr "Show A")])] in
  let self := Sample.event (JDict (("eventType", JStr "Download") :: fields)) in
  let other := Sample.event (JDict fields) in
  from_option Str.int (Some 0) (Webhook.content_length self) = Some 64
  ∧ from_option Str.int (Some 0) (Webhook.content_length other) = Some 64
  ∧ Webhook.read_json self 64 = Returned (JDict (("eventType", JStr "Download") :: fields))
  ∧ Webhook.read_json other 64 = Returned (JDict fields)
  ∧ Webhook.do_POST Sample.str_other Sample.shell_fails self
    = Webhook.do_POST Sample.str_other Sample.shell_fails other.
Proof.
  intros fields self other.
  split_and!; [reflexivity..|].
  exact (do_POST_ignores_event_type Sample.str_other Sample.shell_fails self other 64
           fields (JStr "Download") eq_refl eq_refl eq_refl eq_refl).
Defined.

(** X17 at the URL the driver passes. *)
Lemma client_config_reads_host_and_port_witness :
  Str.contains ":" "rdtclient" = false
  ∧ Str.contains ":" "6500" = false
  ∧ Str.int "6500" = Some 6500
  ∧ ∃ config,
      client_config ("http://" +:+ "rdtclient" +:+ ":" +:+ "6500") "sonarr"
      = Returned config
      ∧ setting "host" config = Some (JStr "rdtclient")
      ∧ setting "port" config = Some (JInt 6500)
      ∧ setting "category" config = Some (JStr "sonarr").
Proof.
  split_and!; [reflexivity..|].
  exact (client_config_reads_host_and_port "rdtclient" "6500" "sonarr" 6500
           eq_refl eq_refl eq_refl).
Defined.

(** X18 at the same host and port. *)
Lemma client_config_other_urls_witness :
  Str.contains ":" "rdtclient" = false
  ∧ Str.contains ":" "6500" = false
  ∧ Str.int "6500" = Some 6500
  ∧ (∃ config,
       client_config ("https://" +:+ "rdtclient" +:+ ":" +:+ "6500") "sonarr"
       = Returned config
       ∧ setting "host" config = Some (JStr "https")
       ∧ setting "port" config = Some (JInt 6500))
  ∧ client_config ("http://" +:+ "rdtclient") "sonarr" = Raised ValueError.
Proof.
  split_and!; [reflexivity..| |];
    apply (client_config_other_urls "rdtclient" "6500" "sonarr" 6500
             eq_refl eq_refl eq_refl).
Defined.
